(** * legal-ai-backend: the extraction cascade and the session store

    A shallow embedding of [app.py]: the three-layer text extraction
    ([extract_text_from_pdf], [ocr_via_gemini]), the text cleaner
    ([clean_text]) and the four request handlers ([upload_contract],
    [analyze_risks], [chat], [rewrite_clause]) over the global [SESSIONS]
    dictionary.

    The libraries the program calls (pdfplumber, pypdf, google.generativeai)
    are not part of the program.  What they answer is an input of the model:
    a [document] records what each extractor and the cloud service answer for
    one stored file, and every handler that queries the text generator takes
    the generator's behaviour during that request as an argument.  Every
    call to a library is recorded in a trace of [event]s, so that "is never
    invoked" and "is invoked once" are statements about that trace.

    Conventions.
    - A Python [str] is a [string]; one [ascii] stands for one code point
      below 256.
    - Exceptions are instances of [Exception]: the [except Exception] clauses
      of the program catch all of them.
    - [print] writes to standard output only and is left out of the trace. *)

From Stdlib Require Import Ascii NArith.
From stdpp Require Import base option list strings gmap.

(** ** Python strings *)

Module PyStr.

(** ["\n"] *)
Definition nl : string := String "010"%char "".

(** The double quote, written by its code. *)
Definition dq : string := String "034"%char "".

(** [len(s)] *)
Definition len (s : string) : nat := String.length s.

(** [c.isspace()] for a code point below 256: the characters that
    [str.strip()] without argument removes. *)
Definition isspace (c : ascii) : bool :=
  let n := N_of_ascii c in
  ((9 <=? n) && (n <=? 13) || (28 <=? n) && (n <=? 32)
   || (n =? 133) || (n =? 160))%N.

(** [s.lstrip()] *)
Fixpoint lstrip (s : string) : string :=
  match s with
  | EmptyString => EmptyString
  | String c r => if isspace c then lstrip r else s
  end.

(** [s.rstrip()] *)
Fixpoint rstrip (s : string) : string :=
  match s with
  | EmptyString => EmptyString
  | String c r =>
      match rstrip r with
      | EmptyString => if isspace c then EmptyString else String c EmptyString
      | r' => String c r'
      end
  end.

(** [s.strip()] *)
Definition strip (s : string) : string := rstrip (lstrip s).

(** [s.startswith(p)] *)
Fixpoint startswith (p s : string) : bool :=
  match p, s with
  | EmptyString, _ => true
  | String a p', String b s' => if Ascii.eqb a b then startswith p' s' else false
  | String _ _, EmptyString => false
  end.

(** [s.replace(old, new)] for a non-empty [old]: the occurrences of [old]
    are found from the left and do not overlap.  [skip] counts the
    characters of a matched occurrence that are still to be dropped. *)
Fixpoint replace_from (skip : nat) (old new s : string) : string :=
  match s with
  | EmptyString => EmptyString
  | String c r =>
      match skip with
      | S k => replace_from k old new r
      | O =>
          if startswith old s
          then new +:+ replace_from (Nat.pred (len old)) old new r
          else String c (replace_from 0 old new r)
      end
  end.

Definition replace (old new s : string) : string := replace_from 0 old new s.

(** [s[:n]] for [n >= 0] *)
Fixpoint slice_to (n : N) (s : string) : string :=
  match s with
  | EmptyString => EmptyString
  | String c r => if (n =? 0)%N then EmptyString else String c (slice_to (N.pred n) r)
  end.

(** [s[-1:].isspace()]: [s] is non-empty and its last character is white
    space. *)
Fixpoint ends_with_space (s : string) : bool :=
  match s with
  | EmptyString => false
  | String c EmptyString => isspace c
  | String _ r => ends_with_space r
  end.

(** [c in s] *)
Fixpoint has_char (c : ascii) (s : string) : bool :=
  match s with
  | EmptyString => false
  | String a r => Ascii.eqb c a || has_char c r
  end.

(** [s] with every [c] left out. *)
Fixpoint without_char (c : ascii) (s : string) : string :=
  match s with
  | EmptyString => EmptyString
  | String a r => if Ascii.eqb c a then without_char c r else String a (without_char c r)
  end.

(** [s] holds white space only (or nothing). *)
Fixpoint blank (s : string) : bool :=
  match s with
  | EmptyString => true
  | String a r => isspace a && blank r
  end.

(** [s[:1].isspace()]: [s] is non-empty and its first character is white
    space. *)
Definition starts_with_space (s : string) : bool :=
  match s with
  | EmptyString => false
  | String c _ => isspace c
  end.

(** Truth value of a string: [bool(s)] *)
Definition truthy (s : string) : bool :=
  match s with EmptyString => false | String _ _ => true end.

End PyStr.

Import PyStr.

(** ** Exceptions, library calls and the effect monad *)

(** The exceptions of the program: [HTTPException(status_code, detail)],
    raised by the handlers, and any other [Exception] raised by a library. *)
Inductive exn : Type :=
  | Exception (msg : string)
  | HTTPException (status_code : nat) (detail : string).

(** What a library call answers: a value, or an exception. *)
Inductive answer (A : Type) : Type :=
  | Ok (a : A)
  | Fault (e : exn).
Arguments Ok {A} a.
Arguments Fault {A} e.

(** A file handle of the cloud service: [uploaded_file.name] and
    [uploaded_file.state.name]. *)
Record remote_file : Type := RemoteFile {
  name : string;
  state_name : string
}.

(** The argument of [model.generate_content]: a prompt, or a file with a
    prompt. *)
Inductive contents : Type :=
  | Text (prompt : string)
  | FileAndText (f : remote_file) (prompt : string).

(** The response object of the generator; reading [response.text] may
    itself raise. *)
Record response : Type := Response { text : answer string }.

Inductive event : Type :=
  | pdfplumber_open
  | pdfplumber_extract_text (i : nat)
  | pdfplumber_close
  | PdfReader_open
  | pypdf_extract_text (i : nat)
  | pypdf_pages_end
  | enter_ocr_via_gemini
  | genai_upload_file
  | time_sleep
  | genai_get_file (n : nat)
  | model_generate_content (c : contents)
  | response_text.

Global Instance remote_file_eq_dec : EqDecision remote_file.
Proof. solve_decision. Defined.
Global Instance contents_eq_dec : EqDecision contents.
Proof. solve_decision. Defined.
Global Instance event_eq_dec : EqDecision event.
Proof. solve_decision. Defined.

(** How a run ends.  [Diverges] is the result of a loop that was given too
    little fuel; no handler catches it. *)
Inductive outcome (A : Type) : Type :=
  | Returns (a : A)
  | Raises (e : exn)
  | Diverges.
Arguments Returns {A} a.
Arguments Raises {A} e.
Arguments Diverges {A}.

(** A computation over a mutable state [S]: the outcome, the state it
    leaves and the library calls it made, in order. *)
Definition M (S A : Type) : Type := S → outcome A * S * list event.

Definition ret {S A} (a : A) : M S A := λ s, (Returns a, s, []).

Definition bind {S A B} (m : M S A) (k : A → M S B) : M S B :=
  λ s, match m s with
       | (Returns a, s', t) =>
           match k a s' with (o, s'', t') => (o, s'', t ++ t') end
       | (Raises e, s', t) => (Raises e, s', t)
       | (Diverges, s', t) => (Diverges, s', t)
       end.

Definition raise {S A} (e : exn) : M S A := λ s, (Raises e, s, []).
Definition diverge {S A} : M S A := λ s, (Diverges, s, []).
Definition get {S} : M S S := λ s, (Returns s, s, []).
Definition put {S} (s : S) : M S unit := λ _, (Returns tt, s, []).
Definition emit {S} (e : event) : M S unit := λ s, (Returns tt, s, [e]).

(** A library call: it is recorded, then answers or raises. *)
Definition call {S A} (e : event) (a : answer A) : M S A :=
  λ s, match a with
       | Ok v => (Returns v, s, [e])
       | Fault x => (Raises x, s, [e])
       end.

(** [try: body / except Exception: handler].  The state changes made before
    the exception are kept, as assignments to Python variables are. *)
Definition try_except {S A} (body : M S A) (handler : exn → M S A) : M S A :=
  λ s, match body s with
       | (Raises e, s', t) =>
           match handler e s' with (o, s'', t') => (o, s'', t ++ t') end
       | r => r
       end.

(** A call of a function that has local variables [L] of its own. *)
Definition invoke {S L A} (f : M L A) (locals : L) : M S A :=
  λ s, match f locals with (o, _, t) => (o, s, t) end.

Declare Scope py_scope.
Delimit Scope py_scope with py.
Notation "x <~ m ; k" := (bind m (λ x, k))
  (at level 100, m at next level, right associativity) : py_scope.
Notation "m ;;; k" := (bind m (λ _, k))
  (at level 100, right associativity) : py_scope.
Open Scope py_scope.

Definition result_of {S A} (r : outcome A * S * list event) : outcome A := r.1.1.
Definition state_of {S A} (r : outcome A * S * list event) : S := r.1.2.
Definition trace_of {S A} (r : outcome A * S * list event) : list event := r.2.

(** ** The document, as the extractors see it *)

(** What one local extractor does on the stored file.  [opening] is the
    answer of [pdfplumber.open] / [PdfReader]; [page_answers] holds, for
    each page that the loop reaches, what [page.extract_text] answers
    ([None] or a string, or an exception); [closing] is a fault raised inside
    the outer [try] once those pages are done (a page that cannot be fetched
    when the iteration asks for it, or the exit of the [with] block). *)
Record pdf_run : Type := PdfRun {
  opening : answer unit;
  page_answers : list (answer (option string));
  closing : answer unit
}.

(** What the cloud service does: the answer to the upload, to the [n]-th poll
    of the file called [name], and to a generation request. *)
Record cloud : Type := Cloud {
  upload_file : answer remote_file;
  get_file : nat → string → answer remote_file;
  generate_content : contents → answer response
}.

Record document : Type := Document {
  plumber : pdf_run;
  pypdf : pdf_run;
  gemini : cloud
}.

(** ** [ocr_via_gemini] (lines 52-71) *)

Definition ocr_prompt : string :=
  "Transcribe the full text from this document exactly as it appears. Output raw text only.".

(** Lines 61-63: [while uploaded_file.state.name == "PROCESSING"].  [fuel]
    bounds the number of iterations; [n] numbers the polls. *)
Fixpoint poll (fuel n : nat) (svc : cloud) (uploaded_file : remote_file)
  : M unit remote_file :=
  if decide (state_name uploaded_file = "PROCESSING") then
    match fuel with
    | O => diverge
    | S fuel' =>
        emit time_sleep ;;;
        uploaded_file' <~ call (genai_get_file n) (get_file svc n (name uploaded_file));
        poll fuel' (S n) svc uploaded_file'
    end
  else ret uploaded_file.

(** Lines 59-68, the body of the [try]. *)
Definition ocr_body (fuel : nat) (svc : cloud) : M unit string :=
  uploaded_file <~ call genai_upload_file (upload_file svc);
  uploaded_file <~ poll fuel 0 svc uploaded_file;
  let c := FileAndText uploaded_file ocr_prompt in
  response <~ call (model_generate_content c) (generate_content svc c);
  call response_text (text response).

Definition ocr_via_gemini (fuel : nat) (svc : cloud) : M unit string :=
  emit enter_ocr_via_gemini ;;;
  try_except (ocr_body fuel svc) (λ _, ret "").

(** ** [extract_text_from_pdf] (lines 73-124) *)

(** The page loops of lines 86-94 and 108-114, which differ in the library
    only: [extract i] names the call for page [i].  The state is the local
    variable [full_text]. *)
Fixpoint pages_loop (extract : nat → event) (i : nat)
    (pages : list (answer (option string))) : M string unit :=
  match pages with
  | [] => ret tt
  | page :: rest =>
      try_except
        (text <~ call (extract i) page;
         match text with
         | Some t =>
             if truthy t
             then full_text <~ get; put (full_text +:+ t +:+ nl)
             else ret tt
         | None => ret tt
         end)
        (λ _, ret tt) ;;;
      pages_loop extract (S i) rest
  end.

(** Lines 84-96 *)
Definition layer1 (doc : document) : M string unit :=
  try_except
    (call pdfplumber_open (opening (plumber doc)) ;;;
     pages_loop pdfplumber_extract_text 0 (page_answers (plumber doc)) ;;;
     call pdfplumber_close (closing (plumber doc)))
    (λ _, ret tt).

(** Lines 106-116 *)
Definition layer2 (doc : document) : M string unit :=
  try_except
    (call PdfReader_open (opening (pypdf doc)) ;;;
     pages_loop pypdf_extract_text 0 (page_answers (pypdf doc)) ;;;
     call pypdf_pages_end (closing (pypdf doc)))
    (λ _, ret tt).

(** Lines 99 and 118: [len(full_text.strip()) > 50] *)
Definition sufficient (full_text : string) : bool :=
  bool_decide (50 < len (strip full_text)).

Definition extract_text_from_pdf (fuel : nat) (doc : document) : M string string :=
  put "" ;;;
  layer1 doc ;;;
  full_text <~ get;
  if sufficient full_text then ret full_text else
  put "" ;;;
  layer2 doc ;;;
  full_text <~ get;
  if sufficient full_text then ret full_text else
  invoke (ocr_via_gemini fuel (gemini doc)) tt.

(** The text that each local layer leaves in [full_text]. *)
Definition layer1_text (doc : document) : string := state_of (layer1 doc "").
Definition layer2_text (doc : document) : string := state_of (layer2 doc "").

(** A run of [extract_text_from_pdf]; the initial value of the local
    variable does not matter, line 80 sets it. *)
Definition run_extract (fuel : nat) (doc : document) :=
  extract_text_from_pdf fuel doc "".

(** The events of the secondary layer and of the cloud escalator. *)
Definition is_pypdf_event (e : event) : bool :=
  match e with
  | PdfReader_open | pypdf_extract_text _ | pypdf_pages_end => true
  | _ => false
  end.

Definition is_cloud_event (e : event) : bool :=
  match e with
  | enter_ocr_via_gemini | genai_upload_file | time_sleep | genai_get_file _
  | model_generate_content _ | response_text => true
  | _ => false
  end.

Definition count_event (e : event) (t : list event) : nat :=
  length (filter (λ x, x = e) t).

(** The calls of the upload, poll and transcribe protocol, the entry of
    [ocr_via_gemini] apart. *)
Definition is_protocol_event (e : event) : bool :=
  match e with
  | genai_upload_file | time_sleep | genai_get_file _
  | model_generate_content _ | response_text => true
  | _ => false
  end.

(** ** The extraction rule in the words of the specification *)

(** The page texts an extractor produced, in page order, each non-empty one
    followed by a line break; a page that raised, or that gave [None] or the
    empty string, adds nothing. *)
Fixpoint joined_pages (pages : list (answer (option string))) : string :=
  match pages with
  | [] => ""
  | Ok (Some (String c t)) :: rest => String c t +:+ nl +:+ joined_pages rest
  | _ :: rest => joined_pages rest
  end.

(** The aggregate text of one local tier: nothing when the file cannot be
    opened. *)
Definition local_text (r : pdf_run) : string :=
  match opening r with
  | Ok _ => joined_pages (page_answers r)
  | Fault _ => ""
  end.

(** ** How the cloud service can behave during the polling loop *)

(** [poll_run svc n f r k]: polling from the [n]-th poll on with the handle
    [f] in hand ends after [k] polls, with the handle [r] that left the
    processing state or with the fault of the last poll. *)
Inductive poll_run (svc : cloud) : nat → remote_file → answer remote_file → nat → Prop :=
  | poll_ready n f :
      state_name f ≠ "PROCESSING" →
      poll_run svc n f (Ok f) 0
  | poll_fault n f e :
      state_name f = "PROCESSING" →
      get_file svc n (name f) = Fault e →
      poll_run svc n f (Fault e) 1
  | poll_next n f f' r k :
      state_name f = "PROCESSING" →
      get_file svc n (name f) = Ok f' →
      poll_run svc (S n) f' r k →
      poll_run svc n f r (S k).

(** The calls of [k] rounds of the loop, from poll [n] on. *)
Definition poll_trace (n k : nat) : list event :=
  flat_map (λ i, [time_sleep; genai_get_file i]) (seq n k).

(** [cloud_fault svc k t]: some step of the protocol raises, after [k] polls;
    [t] lists the calls made up to and including the one that raises. *)
Inductive cloud_fault (svc : cloud) : nat → list event → Prop :=
  | fault_upload e :
      upload_file svc = Fault e →
      cloud_fault svc 0 [genai_upload_file]
  | fault_poll f e k :
      upload_file svc = Ok f →
      poll_run svc 0 f (Fault e) k →
      cloud_fault svc k (genai_upload_file :: poll_trace 0 k)
  | fault_generate f f' k e :
      upload_file svc = Ok f →
      poll_run svc 0 f (Ok f') k →
      generate_content svc (FileAndText f' ocr_prompt) = Fault e →
      cloud_fault svc k
        (genai_upload_file :: poll_trace 0 k
           ++ [model_generate_content (FileAndText f' ocr_prompt)])
  | fault_text f f' k r e :
      upload_file svc = Ok f →
      poll_run svc 0 f (Ok f') k →
      generate_content svc (FileAndText f' ocr_prompt) = Ok r →
      text r = Fault e →
      cloud_fault svc k
        (genai_upload_file :: poll_trace 0 k
           ++ [model_generate_content (FileAndText f' ocr_prompt); response_text]).

(** [cloud_settles svc k]: the upload raises, or the polling loop ends after
    [k] polls. *)
Definition cloud_settles (svc : cloud) (k : nat) : Prop :=
  match upload_file svc with
  | Fault _ => k = 0
  | Ok f => ∃ r, poll_run svc 0 f r k
  end.

(** ** [clean_text] (lines 48-50) *)

Definition clean_text (text : string) : string :=
  strip (replace "*" "" (replace "**" "" text)).

(** ** The session store *)

(** One entry of [chat_history]: [{"role": ..., "content": ...}]. *)
Record chat_message : Type := ChatMessage {
  role : string;
  content : string
}.

(** One value of [SESSIONS]. *)
Record session : Type := Session {
  contract_text : string;
  chat_history : list chat_message;
  filename : string
}.

(** The body of a JSON reply: the fields of the returned dictionary. *)
Definition reply : Type := list (string * string).

(** The text generator as one request sees it. *)
Definition generator : Type := contents → answer response.

(** [session['chat_history'].append(m)]: the dictionary fetched from
    [SESSIONS] is the stored object itself, so the stored session changes. *)
Definition append_chat (session_id : string) (m : chat_message)
  : M (gmap string session) unit :=
  SESSIONS <~ get;
  put (alter (λ s, {| contract_text := contract_text s;
                      chat_history := chat_history s ++ [m];
                      filename := filename s |}) session_id SESSIONS).

(** ** The prompts *)

(** A triple-quoted literal: a line break, the lines, and the indentation
    of the closing quotes. *)
Definition triple_quoted (lines : list string) : string :=
  nl +:+ foldr (λ l acc, l +:+ nl +:+ acc) "    " lines.

Definition analyze_prompt (contract : string) : string :=
  triple_quoted [
    "    You are an expert Legal AI. Analyze the contract text below.";
    "    ";
    "    INSTRUCTIONS:";
    "    1. Identify the TOP 3 SUBSTANTIAL LEGAL RISKS.";
    "    2. STRICTLY IGNORE OCR errors, typos, or " +:+ dq +:+ "Lega l" +:+ dq
      +:+ " spacing issues. DO NOT report these as risks.";
    "    3. Detect the language. Output in the SAME language.";
    "    4. Return ONLY valid JSON. No Markdown (*).";
    "    ";
    "    Format:";
    "    {";
    "        " +:+ dq +:+ "risks" +:+ dq +:+ ": [";
    "            {";
    "                " +:+ dq +:+ "clause_title" +:+ dq +:+ ": " +:+ dq
      +:+ "Short Title" +:+ dq +:+ ",";
    "                " +:+ dq +:+ "original_text" +:+ dq +:+ ": " +:+ dq
      +:+ "Corrected quote from text" +:+ dq +:+ ",";
    "                " +:+ dq +:+ "risk_explanation" +:+ dq +:+ ": " +:+ dq
      +:+ "Concise legal explanation" +:+ dq;
    "            }";
    "        ]";
    "    }";
    "    ";
    "    Contract:";
    "    " +:+ slice_to 40000 contract
  ].

Definition chat_context (contract : string) : string :=
  triple_quoted [
    "    You are a legal assistant. ";
    "    1. Answer based on the contract context below.";
    "    2. Do NOT use markdown (*).";
    "    3. Ignore OCR errors in the text.";
    "    ";
    "    Contract context:";
    "    " +:+ slice_to 20000 contract
  ].

Definition chat_prompt (contract query : string) : string :=
  chat_context contract +:+ nl +:+ nl +:+ "User Question: " +:+ query.

Definition rewrite_prompt (clause_text : string) : string :=
  triple_quoted [
    "    Act as a senior lawyer. Rewrite this clause to be favorable to the Client.";
    "    ";
    "    RULES:";
    "    1. Output ONLY the rewritten paragraph.";
    "    2. Use professional legal language.";
    "    3. No Markdown.";
    "    ";
    "    Original Clause:";
    "    " +:+ dq +:+ clause_text +:+ dq
  ].

(** ** The handlers *)

Definition extraction_failed : exn :=
  HTTPException 400 "Could not extract text. PDF is blank/corrupted and OCR failed.".

Definition session_not_found : exn := HTTPException 404 "Session not found".

Definition rewrite_failed : exn := HTTPException 500 "Rewrite failed".

(** ['{"risks": []}'] *)
Definition empty_risks : string := "{" +:+ dq +:+ "risks" +:+ dq +:+ ": []}".

(** [upload_contract] (lines 131-151).  [session_id] is the identifier that
    [uuid.uuid4()] draws for this request, [file_name] is [file.filename],
    and [doc] is the uploaded file once lines 133-137 have stored it. *)
Definition upload_contract (session_id file_name : string) (fuel : nat)
    (doc : document) : M (gmap string session) reply :=
  contract_text <~ invoke (extract_text_from_pdf fuel doc) "";
  if negb (truthy contract_text) || bool_decide (len contract_text < 10)
  then raise extraction_failed
  else
    SESSIONS <~ get;
    put (<[session_id := {| contract_text := contract_text;
                            chat_history := [];
                            filename := file_name |}]> SESSIONS) ;;;
    ret [("session_id", session_id); ("message", "File processed")].

(** [analyze_risks] (lines 154-189).  A stored session is a dictionary of
    three keys, so [not session] holds for a missing one only. *)
Definition analyze_risks (session_id : string) (generate : generator)
  : M (gmap string session) reply :=
  SESSIONS <~ get;
  match SESSIONS !! session_id with
  | None => raise session_not_found
  | Some session =>
      let prompt := analyze_prompt (contract_text session) in
      try_except
        (response <~ call (model_generate_content (Text prompt)) (generate (Text prompt));
         response_text <~ call response_text (text response);
         let text_out := replace "```" "" (replace "```json" "" (strip response_text)) in
         let text_out := clean_text text_out in
         ret [("risks", text_out)])
        (λ _, ret [("risks", empty_risks)])
  end.

(** [chat] (lines 192-215) *)
Definition chat (session_id query : string) (generate : generator)
  : M (gmap string session) reply :=
  SESSIONS <~ get;
  match SESSIONS !! session_id with
  | None => raise session_not_found
  | Some session =>
      let full_prompt := chat_prompt (contract_text session) query in
      response <~ call (model_generate_content (Text full_prompt))
                       (generate (Text full_prompt));
      response_text <~ call response_text (text response);
      let clean_response := clean_text response_text in
      append_chat session_id {| role := "user"; content := query |} ;;;
      append_chat session_id {| role := "ai"; content := clean_response |} ;;;
      ret [("response", clean_response)]
  end.

(** [rewrite_clause] (lines 218-236) *)
Definition rewrite_clause (clause_text : string) (generate : generator)
  : M (gmap string session) reply :=
  let prompt := rewrite_prompt clause_text in
  try_except
    (response <~ call (model_generate_content (Text prompt)) (generate (Text prompt));
     response_text <~ call response_text (text response);
     let cleaned := clean_text response_text in
     ret [("rewritten", cleaned)])
    (λ _, raise rewrite_failed).

(** ** Serving a sequence of requests *)

Inductive request : Type :=
  | Upload (session_id file_name : string) (fuel : nat) (doc : document)
  | Analyze (session_id : string) (generate : generator)
  | Chat (session_id query : string) (generate : generator)
  | Rewrite (clause_text : string) (generate : generator).

Definition handle (r : request) : M (gmap string session) reply :=
  match r with
  | Upload session_id file_name fuel doc => upload_contract session_id file_name fuel doc
  | Analyze session_id generate => analyze_risks session_id generate
  | Chat session_id query generate => chat session_id query generate
  | Rewrite clause_text generate => rewrite_clause clause_text generate
  end.

(** The requests are served one after the other; a request that fails
    leaves the store as it was when the failure occurred. *)
Fixpoint serve (rs : list request) (SESSIONS : gmap string session)
  : list (outcome reply) * gmap string session :=
  match rs with
  | [] => ([], SESSIONS)
  | r :: rest =>
      let o := handle r SESSIONS in
      let '(os, SESSIONS') := serve rest (state_of o) in
      (result_of o :: os, SESSIONS')
  end.

(** [history_of m sid]: the chat history stored for [sid], empty when there
    is no such session. *)
Definition history_of (SESSIONS : gmap string session) (session_id : string)
  : list chat_message :=
  match SESSIONS !! session_id with
  | Some s => chat_history s
  | None => []
  end.

Definition field (k : string) (r : reply) : string :=
  match list_find (λ kv, kv.1 = k) r with
  | Some (_, (_, v)) => v
  | None => ""
  end.

(** The two messages of a chat call on [sid] that returned: the question
    that was asked and the answer the caller received. *)
Definition turn (sid : string) (r : request) (o : outcome reply) : list chat_message :=
  match r, o with
  | Chat sid' query _, Returns rep =>
      if decide (sid' = sid)
      then [ {| role := "user"; content := query |};
             {| role := "ai"; content := field "response" rep |} ]
      else []
  | _, _ => []
  end.

Definition turns (sid : string) (rs : list request) (os : list (outcome reply))
  : list chat_message :=
  concat (zip_with (turn sid) rs os).

(** The number of chat calls on [sid] that returned. *)
Definition successful_chats (sid : string) (rs : list request)
    (os : list (outcome reply)) : nat :=
  length (filter (λ ms, ms ≠ []) (zip_with (turn sid) rs os)).

(** No request of [rs] is an upload that draws the identifier [sid]. *)
Definition never_redrawn (sid : string) (rs : list request) : Prop :=
  Forall (λ r, match r with
               | Upload sid' _ _ _ => sid' ≠ sid
               | _ => True
               end) rs.

(** [generator_faults generate prompt e]: asked [prompt], the generator
    raises [e], either in [generate_content] or when [response.text] is
    read. *)
Definition generator_faults (generate : generator) (prompt : string) (e : exn) : Prop :=
  generate (Text prompt) = Fault e
  ∨ ∃ r, generate (Text prompt) = Ok r ∧ text r = Fault e.

(** The role that the position [i] of a chat history is to carry. *)
Definition role_at (i : nat) : string := if Nat.even i then "user" else "ai".

(** The session that a chat call leaves: two messages more. *)
Definition with_turn (s : session) (query answer : string) : session :=
  {| contract_text := contract_text s;
     chat_history := chat_history s
                       ++ [ {| role := "user"; content := query |};
                            {| role := "ai"; content := answer |} ];
     filename := filename s |}.

(** ** Predicates of the further properties *)

(** The service never finishes: every poll, whatever its number and the
    name asked for, answers a handle that is still in the processing
    state. *)
Definition always_processing (svc : cloud) : Prop :=
  ∀ n name, ∃ f, get_file svc n name = Ok f ∧ state_name f = "PROCESSING".

(** A page without visible text: the extraction raises, or it answers
    [None], or a string of white space only (the empty one included). *)
Definition blank_page (p : answer (option string)) : bool :=
  match p with
  | Ok (Some t) => blank t
  | _ => true
  end.

(** A history of whole turns: an even number of messages, whose roles
    alternate from [user] on. *)
Definition whole_turns (h : list chat_message) : Prop :=
  Nat.even (length h) = true ∧ ∀ i m, h !! i = Some m → role m = role_at i.

(** What every stored session satisfies: its text passed the guard of line
    142 and its history consists of whole turns. *)
Definition well_formed (SESSIONS : gmap string session) : Prop :=
  ∀ sid s, SESSIONS !! sid = Some s →
    contract_text s ≠ "" ∧ 10 ≤ len (contract_text s)
    ∧ whole_turns (chat_history s).

(** [addresses sid r]: the request [r] is an upload that draws the
    identifier [sid], or a chat call on [sid]. *)
Definition addresses (sid : string) (r : request) : Prop :=
  match r with
  | Upload sid' _ _ _ | Chat sid' _ _ => sid' = sid
  | Analyze _ _ | Rewrite _ _ => False
  end.

(** The cloud calls of a run. *)
Definition cloud_calls (t : list event) : list event :=
  filter (λ e, is_cloud_event e = true) t.

(** ** Example documents *)

Module Examples.

Definition clause : string :=
  "This Agreement is made between the Client and the Supplier.".

Definition transcript : string :=
  "SERVICE AGREEMENT between the parties named below.".

Definition unreadable : exn := Exception "No /Root object! - Is this really a PDF?".

(** A service that takes two polls to process a file named [files/1] and
    then transcribes it as [answer]. *)
Definition transcribing (answer : string) : cloud :=
  {| upload_file := Ok (RemoteFile "files/1" "PROCESSING");
     get_file := λ n _, if decide (n < 1)
                        then Ok (RemoteFile "files/1" "PROCESSING")
                        else Ok (RemoteFile "files/1" "ACTIVE");
     generate_content := λ _, Ok (Response (Ok answer)) |}.

(** A service that refuses the upload. *)
Definition unreachable : cloud :=
  {| upload_file := Fault (Exception "503 Service Unavailable");
     get_file := λ _ _, Fault (Exception "503 Service Unavailable");
     generate_content := λ _, Fault (Exception "503 Service Unavailable") |}.

(** A service that accepts the upload and loses the file: the second
    poll raises. *)
Definition losing_file : cloud :=
  {| upload_file := Ok (RemoteFile "files/2" "PROCESSING");
     get_file := λ n _, if decide (n < 1)
                        then Ok (RemoteFile "files/2" "PROCESSING")
                        else Fault (Exception "404 File not found");
     generate_content := λ _, Ok (Response (Ok "unused")) |}.

Definition no_pages : pdf_run :=
  {| opening := Ok tt; page_answers := [Ok (Some ""); Ok None]; closing := Ok tt |}.

Definition broken : pdf_run :=
  {| opening := Fault unreadable; page_answers := []; closing := Ok tt |}.

(** A text document of three pages: the second one cannot be read and the
    third one is blank. *)
Definition text_pdf : document :=
  {| plumber := {| opening := Ok tt;
                   page_answers := [Ok (Some clause); Fault (Exception "bad page");
                                    Ok (Some "")];
                   closing := Ok tt |};
     pypdf := no_pages;
     gemini := transcribing transcript |}.

(** A document that only the second extractor can read. *)
Definition second_tier_pdf : document :=
  {| plumber := broken;
     pypdf := {| opening := Ok tt;
                 page_answers := [Ok (Some clause); Ok None];
                 closing := Fault (Exception "page 3 missing") |};
     gemini := unreachable |}.

(** A scanned document: no embedded text, the cloud service reads it. *)
Definition scanned_pdf : document :=
  {| plumber := no_pages; pypdf := no_pages; gemini := transcribing transcript |}.

(** A scanned page on which the service finds six characters, followed by
    four line breaks. *)
Definition page_number_pdf : document :=
  {| plumber := no_pages; pypdf := no_pages;
     gemini := transcribing ("Page 1" +:+ nl +:+ nl +:+ nl +:+ nl) |}.

(** A file that nothing can read. *)
Definition corrupted_pdf : document :=
  {| plumber := broken; pypdf := broken; gemini := unreachable |}.

(** A generator that answers [raw] to every prompt, and one that raises. *)
Definition answering (raw : string) : generator := λ _, Ok (Response (Ok raw)).
Definition failing : generator := λ _, Fault (Exception "429 Resource exhausted").

(** A store with one session, as an upload of [text_pdf] leaves it. *)
Definition one_session : gmap string session :=
  state_of (upload_contract "7f3c" "lease.pdf" 0 text_pdf ∅).

(** Four chat calls: the second one fails and the third one names a
    session that does not exist. *)
Definition conversation : list request :=
  [ Chat "7f3c" "Who pays?" (answering " The **Client**. ");
    Chat "7f3c" "When?" failing;
    Chat "unknown" "x" (answering "y");
    Chat "7f3c" "When?" (answering "On *delivery*.") ].

(** A service on which the file stays in the processing state for ever. *)
Definition stuck : cloud :=
  {| upload_file := Ok (RemoteFile "files/3" "PROCESSING");
     get_file := λ _ name, Ok (RemoteFile name "PROCESSING");
     generate_content := λ _, Ok (Response (Ok "unused")) |}.

(** A service on which the processing of the file fails at once; the
    generation request on the failed file is refused. *)
Definition failed_processing : cloud :=
  {| upload_file := Ok (RemoteFile "files/4" "FAILED");
     get_file := λ _ name, Ok (RemoteFile name "FAILED");
     generate_content := λ _, Fault (Exception "400 File is not in an ACTIVE state") |}.

(** Sixty line breaks and spaces, as a page of a scanned file may give. *)
Definition white_page : string :=
  foldr (λ _ acc, nl +:+ " " +:+ acc) "" (seq 0 30).

(** A scanned document whose pages give white space only. *)
Definition whitespace_pdf : document :=
  {| plumber := {| opening := Ok tt;
                   page_answers := [Ok (Some white_page); Ok (Some white_page)];
                   closing := Ok tt |};
     pypdf := {| opening := Ok tt;
                 page_answers := [Ok (Some white_page); Ok None];
                 closing := Ok tt |};
     gemini := transcribing transcript |}.

(** A scanned receipt on which the service reads twenty characters. *)
Definition receipt_pdf : document :=
  {| plumber := no_pages; pypdf := no_pages;
     gemini := transcribing "Total due: 42.00 EUR" |}.

End Examples.

(** * Verification *)

(** ** Strings *)

Section strings.

Lemma app_cons c (s t : string) : String c s +:+ t = String c (s +:+ t).
Proof. reflexivity. Qed.

Lemma app_empty_l (s : string) : "" +:+ s = s.
Proof. reflexivity. Qed.

Lemma app_empty_r (s : string) : s +:+ "" = s.
Proof. induction s as [|c s IH]; [done|]. by rewrite app_cons, IH. Qed.

Lemma app_assoc_str (s t u : string) : (s +:+ t) +:+ u = s +:+ t +:+ u.
Proof. induction s as [|c s IH]; [done|]. by rewrite !app_cons, IH. Qed.

Lemma len_app (s t : string) : len (s +:+ t) = len s + len t.
Proof.
  induction s as [|c s IH]; [done|].
  rewrite app_cons. unfold len in *. simpl. by rewrite IH.
Qed.


Lemma rstrip_no_trailing_space (s : string) : ends_with_space (rstrip s) = false.
Proof.
  induction s as [|c s IH]; [done|].
  simpl. destruct (rstrip s) as [|d r] eqn:E.
  - destruct (isspace c) eqn:Hc; simpl; [done|by rewrite Hc].
  - exact IH.
Qed.

Lemma strip_no_trailing_space (s : string) : ends_with_space (strip s) = false.
Proof. apply rstrip_no_trailing_space. Qed.


(** *** Trimming and blank margins *)

Lemma lstrip_blank_app (w x : string) : blank w = true → lstrip (w +:+ x) = lstrip x.
Proof.
  induction w as [|c w IH]; [done|]. cbn [blank].
  intros [Hc Hw]%andb_true_iff. rewrite app_cons. cbn [lstrip]. rewrite Hc. auto.
Qed.

Lemma rstrip_blank (w : string) : blank w = true → rstrip w = "".
Proof.
  induction w as [|c w IH]; [done|]. cbn [blank].
  intros [Hc Hw]%andb_true_iff. cbn [rstrip]. by rewrite IH, Hc.
Qed.

Lemma rstrip_app_blank (x w : string) : blank w = true → rstrip (x +:+ w) = rstrip x.
Proof.
  intros Hw. induction x as [|c x IH].
  - rewrite app_empty_l. by apply rstrip_blank.
  - rewrite app_cons. cbn [rstrip]. by rewrite IH.
Qed.

Lemma strip_app_blank (x w : string) : blank w = true → strip (x +:+ w) = strip x.
Proof.
  intros Hw. unfold strip. induction x as [|c x IH].
  - rewrite app_empty_l. by rewrite <-(app_empty_r w), lstrip_blank_app.
  - rewrite app_cons. cbn [lstrip]. destruct (isspace c); [done|].
    rewrite <-app_cons. by apply rstrip_app_blank.
Qed.

Lemma strip_blank_app (w x : string) : blank w = true → strip (w +:+ x) = strip x.
Proof. intros Hw. unfold strip. by rewrite lstrip_blank_app. Qed.

Lemma lstrip_margin (s : string) : ∃ w, blank w = true ∧ s = w +:+ lstrip s.
Proof.
  induction s as [|c s (w & Hw & IH)]; [by exists ""|].
  cbn [lstrip]. destruct (isspace c) eqn:Hc.
  - exists (String c w). split; [by cbn; rewrite Hc|]. by rewrite app_cons, <-IH.
  - by exists "".
Qed.

Lemma rstrip_margin (s : string) : ∃ w, blank w = true ∧ s = rstrip s +:+ w.
Proof.
  induction s as [|c s (w & Hw & IH)]; [by exists ""|].
  cbn [rstrip]. destruct (rstrip s) as [|d r] eqn:E.
  - rewrite app_empty_l in IH. subst w.
    destruct (isspace c) eqn:Hc.
    + exists (String c s). split; [by cbn; rewrite Hc|done].
    + exists s. split; [done|]. by rewrite app_cons.
  - exists w. split; [done|]. by rewrite app_cons, <-IH.
Qed.

(** A string is its trimmed copy between two blank margins. *)
Lemma strip_margins (s : string) :
  ∃ w1 w2, blank w1 = true ∧ blank w2 = true ∧ s = w1 +:+ strip s +:+ w2.
Proof.
  destruct (lstrip_margin s) as (w1 & H1 & E1).
  destruct (rstrip_margin (lstrip s)) as (w2 & H2 & E2).
  exists w1, w2. split; [done|]. split; [done|].
  unfold strip. by rewrite <-E2.
Qed.

(** *** Removing a character *)

Lemma without_char_app c (s t : string) :
  without_char c (s +:+ t) = without_char c s +:+ without_char c t.
Proof.
  induction s as [|a s IH]; [done|].
  rewrite app_cons. cbn [without_char]. destruct (Ascii.eqb c a); [done|].
  by rewrite app_cons, IH.
Qed.

Lemma without_char_absent c (s : string) : has_char c s = false → without_char c s = s.
Proof.
  induction s as [|a s IH]; [done|]. cbn [has_char without_char].
  intros [-> Hs]%orb_false_iff. by rewrite IH.
Qed.

Lemma has_char_app c (s t : string) :
  has_char c (s +:+ t) = has_char c s || has_char c t.
Proof.
  induction s as [|a s IH]; [done|].
  rewrite app_cons. cbn [has_char]. by rewrite IH, orb_assoc.
Qed.

Lemma blank_no_star (w : string) : blank w = true → has_char "*" w = false.
Proof.
  induction w as [|a w IH]; [done|]. cbn [blank has_char].
  intros [Ha Hw]%andb_true_iff. rewrite IH by done.
  destruct (Ascii.eqb_spec "*" a) as [<-|]; [discriminate Ha|done].
Qed.

Lemma has_char_strip c (s : string) : has_char c s = false → has_char c (strip s) = false.
Proof.
  destruct (strip_margins s) as (w1 & w2 & _ & _ & E). rewrite E at 1.
  rewrite !has_char_app. by intros [_ [? _]%orb_false_iff]%orb_false_iff.
Qed.

(** *** [replace] *)

(** Nothing is replaced in a string that lacks the first character of
    [old]. *)
Lemma replace_absent a old new (s : string) :
  has_char a s = false → replace (String a old) new s = s.
Proof.
  unfold replace. induction s as [|c s IH]; [done|]. cbn [has_char].
  intros [Hc Hs]%orb_false_iff. cbn [replace_from startswith].
  rewrite Hc. by rewrite IH.
Qed.

Lemma replace_star (s : string) : replace "*" "" s = without_char "*" s.
Proof.
  unfold replace. induction s as [|c s IH]; [done|].
  cbn [replace_from startswith without_char].
  destruct (Ascii.eqb "*" c); cbn; by rewrite ?app_empty_l, IH.
Qed.

Lemma replace_two_stars (s : string) :
  without_char "*" (replace "**" "" s) = without_char "*" s.
Proof.
  unfold replace.
  assert (H : ∀ n s, len s ≤ n →
            without_char "*" (replace_from 0 "**" "" s) = without_char "*" s);
    [|by apply (H (len s))].
  clear s. unfold len.
  induction n as [|n IH]; intros [|c s] Hlen; try done; cbn in Hlen; [lia|].
  cbn [replace_from startswith].
  destruct (Ascii.eqb_spec "*" c) as [<-|Hc].
  - destruct s as [|d s]; [done|].
    destruct (Ascii.eqb_spec "*" d) as [<-|Hd].
    + cbn [startswith len String.length Nat.pred replace_from].
      rewrite app_empty_l. cbn [without_char Ascii.eqb Bool.eqb].
      apply IH. cbn in Hlen. lia.
    + cbn [without_char Ascii.eqb Bool.eqb]. apply IH. lia.
  - cbn [without_char]. destruct (Ascii.eqb_spec "*" c); [done|].
    f_equal. apply IH. lia.
Qed.

(** [clean_text] removes every asterisk and trims. *)
Lemma clean_text_eq (s : string) : clean_text s = strip (without_char "*" s).
Proof. unfold clean_text. by rewrite replace_star, replace_two_stars. Qed.

(** Trimming first does not change what [clean_text] returns. *)
Lemma clean_text_strip (s : string) : clean_text (strip s) = clean_text s.
Proof.
  rewrite !clean_text_eq.
  destruct (strip_margins s) as (w1 & w2 & H1 & H2 & E). rewrite E at 2.
  rewrite !without_char_app.
  rewrite (without_char_absent _ w1), (without_char_absent _ w2)
    by by apply blank_no_star.
  symmetry. rewrite strip_blank_app by done. by apply strip_app_blank.
Qed.

End strings.

(** ** The local layers *)

Section layers.

Lemma pages_loop_run (extract : nat → event) pages :
  ∀ i (full_text : string),
    pages_loop extract i pages full_text
    = (Returns tt, full_text +:+ joined_pages pages,
       extract <$> seq i (length pages)).
Proof.
  induction pages as [|page rest IH]; intros i full_text.
  - by rewrite app_empty_r.
  - cbn [pages_loop joined_pages length seq fmap list_fmap].
    unfold bind at 1.
    destruct page as [[[|c t]|]|e]; cbn; rewrite IH; try done.
    by rewrite !app_assoc_str.
Qed.

(** A local layer neither raises nor diverges, whatever the library does;
    it leaves the text of the specification in [full_text]. *)
Lemma layer1_run doc (full_text : string) :
  ∃ t, layer1 doc full_text
       = (Returns tt, full_text +:+ local_text (plumber doc), t)
     ∧ Forall (λ e, is_pypdf_event e = false ∧ is_cloud_event e = false) t.
Proof.
  unfold layer1, local_text, try_except, bind, call.
  destruct (opening (plumber doc)) as [[]|e].
  - rewrite pages_loop_run.
    destruct (closing (plumber doc)) as [[]|e];
      (eexists; split; [by rewrite ?app_nil_r|]);
      repeat first [apply Forall_cons; split; [done|] | apply Forall_app; split
                   | apply Forall_nil_2 ];
      apply Forall_fmap, Forall_forall; done.
  - eexists; split; [by rewrite app_empty_r|]. by repeat constructor.
Qed.

Lemma layer2_run doc (full_text : string) :
  ∃ t, layer2 doc full_text
       = (Returns tt, full_text +:+ local_text (pypdf doc), t)
     ∧ Forall (λ e, is_cloud_event e = false) t.
Proof.
  unfold layer2, local_text, try_except, bind, call.
  destruct (opening (pypdf doc)) as [[]|e].
  - rewrite pages_loop_run.
    destruct (closing (pypdf doc)) as [[]|e];
      (eexists; split; [by rewrite ?app_nil_r|]);
      repeat first [apply Forall_cons; split; [done|] | apply Forall_app; split
                   | apply Forall_nil_2 ];
      apply Forall_fmap, Forall_forall; done.
  - eexists; split; [by rewrite app_empty_r|]. by repeat constructor.
Qed.

Lemma layer1_text_eq doc : layer1_text doc = local_text (plumber doc).
Proof.
  unfold layer1_text. by destruct (layer1_run doc "") as (t & -> & _).
Qed.

Lemma layer2_text_eq doc : layer2_text doc = local_text (pypdf doc).
Proof.
  unfold layer2_text. by destruct (layer2_run doc "") as (t & -> & _).
Qed.



End layers.

(** ** The cloud escalator *)

Section escalator.

Lemma poll_trace_S n k :
  poll_trace n (S k) = time_sleep :: genai_get_file n :: poll_trace (S n) k.
Proof. reflexivity. Qed.

(** When the service settles after [k] polls, [k] units of fuel are enough
    for the loop, and it makes exactly those [k] polls. *)
Lemma poll_run_sound svc n f r k :
  poll_run svc n f r k →
  ∀ fuel, k ≤ fuel →
    poll fuel n svc f tt
    = (match r with Ok f' => Returns f' | Fault e => Raises e end,
       tt, poll_trace n k).
Proof.
  induction 1 as [n f Hf|n f e Hf Hg|n f f' r k Hf Hg Hrun IH]; intros fuel Hk.
  - destruct fuel; simpl; by rewrite decide_False.
  - destruct fuel as [|fuel]; [lia|]. simpl.
    rewrite decide_True by done.
    unfold bind, emit, call. by rewrite Hg.
  - destruct fuel as [|fuel]; [lia|]. simpl.
    rewrite decide_True by done.
    unfold bind at 1 2, emit, call. rewrite Hg.
    rewrite (IH fuel) by lia. by rewrite poll_trace_S.
Qed.

Lemma poll_events fuel :
  ∀ n svc f, ∃ o t,
    poll fuel n svc f tt = (o, tt, t)
    ∧ Forall (λ e, is_protocol_event e = true) t.
Proof.
  induction fuel as [|fuel IH]; intros n svc f; simpl.
  - case_decide; eexists _, _; (split; [reflexivity|constructor]).
  - case_decide; [|eexists _, _; (split; [reflexivity|constructor])].
    unfold bind at 1 2, emit, call.
    destruct (get_file svc n (name f)) as [f'|e].
    + destruct (IH (S n) svc f') as (o & t & -> & Ht).
      eexists _, _; split; [reflexivity|]. by repeat constructor.
    + eexists _, _; split; [reflexivity|]. by repeat constructor.
Qed.

Lemma ocr_body_events fuel svc :
  ∃ o t, ocr_body fuel svc tt = (o, tt, t)
         ∧ Forall (λ e, is_protocol_event e = true) t.
Proof.
  unfold ocr_body, bind, call.
  destruct (upload_file svc) as [f|e];
    [|eexists _, _; split; [reflexivity|by repeat constructor]].
  destruct (poll_events fuel 0 svc f) as (o & t & -> & Ht).
  destruct o as [f'|e|];
    [|eexists _, _; split; [reflexivity|by repeat constructor]..].
  destruct (generate_content svc _) as [r|e];
    [destruct (text r)|];
    (eexists _, _; split; [reflexivity|]);
    repeat first [apply Forall_cons; split; [done|] | apply Forall_app; split; [done|]
                 | apply Forall_nil_2 ].
Qed.

(** Every run of [ocr_via_gemini] starts with its entry, goes on with the
    calls of the body, and does not end with an exception. *)
Lemma ocr_via_gemini_run fuel svc :
  ∃ o t, ocr_via_gemini fuel svc tt = (o, tt, enter_ocr_via_gemini :: t)
         ∧ (∀ e, o ≠ Raises e)
         ∧ Forall (λ e, is_protocol_event e = true) t.
Proof.
  unfold ocr_via_gemini, bind, emit, try_except.
  destruct (ocr_body_events fuel svc) as (o & t & -> & Ht).
  destruct o as [a|e|]; eexists _, _; (split; [reflexivity|]); split; try done;
    by rewrite ?app_nil_r.
Qed.

(** A fault at any step of the protocol leaves the empty string, and no
    call follows the one that raised. *)
Lemma ocr_via_gemini_fault svc k t fuel :
  cloud_fault svc k t → k ≤ fuel →
  ocr_via_gemini fuel svc tt = (Returns "", tt, enter_ocr_via_gemini :: t).
Proof.
  intros Hfault Hk.
  unfold ocr_via_gemini, ocr_body, try_except, bind, emit, call, ret.
  destruct Hfault as [e Hu|f e k Hu Hp|f f' k e Hu Hp Hg|f f' k r e Hu Hp Hg Ht];
    rewrite Hu; [by cbn|..];
    rewrite (poll_run_sound _ _ _ _ _ Hp fuel Hk); cbn.
  - by rewrite !app_nil_r.
  - rewrite Hg. by rewrite !app_nil_r.
  - rewrite Hg, Ht. by rewrite !app_nil_r.
Qed.

(** When the service settles, the escalator returns a string. *)
Lemma ocr_via_gemini_total svc k fuel :
  cloud_settles svc k → k ≤ fuel →
  ∃ s, result_of (ocr_via_gemini fuel svc tt) = Returns s.
Proof.
  unfold cloud_settles. intros Hs Hk.
  unfold ocr_via_gemini, ocr_body, try_except, bind, emit, call, ret, result_of.
  destruct (upload_file svc) as [f|e]; [|by eexists].
  destruct Hs as [r Hp].
  rewrite (poll_run_sound _ _ _ _ _ Hp fuel Hk).
  destruct r as [f'|e]; [|by eexists].
  destruct (generate_content svc _) as [r|e]; [|by eexists].
  destruct (text r); by eexists.
Qed.

End escalator.

(** ** The cascade *)

Section cascade.

Lemma sufficient_true (s : string) :
  sufficient s = true ↔ 50 < len (strip s).
Proof. apply bool_decide_eq_true. Qed.

Lemma sufficient_false (s : string) :
  sufficient s = false ↔ len (strip s) ≤ 50.
Proof. unfold sufficient. rewrite bool_decide_eq_false. lia. Qed.

Lemma layer1_events doc :
  Forall (λ e, is_pypdf_event e = false ∧ is_cloud_event e = false)
    (trace_of (layer1 doc "")).
Proof. by destruct (layer1_run doc "") as (t & -> & ?). Qed.

Lemma layer2_events doc :
  Forall (λ e, is_cloud_event e = false) (trace_of (layer2 doc "")).
Proof. by destruct (layer2_run doc "") as (t & -> & ?). Qed.

(** The three ways a run of the cascade can go. *)
Lemma run_extract_eq fuel doc :
  run_extract fuel doc =
    if sufficient (layer1_text doc)
    then (Returns (layer1_text doc), layer1_text doc, trace_of (layer1 doc ""))
    else if sufficient (layer2_text doc)
    then (Returns (layer2_text doc), layer2_text doc,
          trace_of (layer1 doc "") ++ trace_of (layer2 doc ""))
    else (result_of (ocr_via_gemini fuel (gemini doc) tt),
          layer2_text doc,
          trace_of (layer1 doc "") ++ trace_of (layer2 doc "")
            ++ trace_of (ocr_via_gemini fuel (gemini doc) tt)).
Proof.
  rewrite layer1_text_eq, layer2_text_eq.
  destruct (layer1_run doc "") as (t1 & E1 & F1).
  destruct (layer2_run doc "") as (t2 & E2 & F2).
  unfold run_extract, extract_text_from_pdf.
  unfold bind at 1, put at 1. unfold bind at 1. rewrite E1.
  unfold bind at 1, get at 1. rewrite app_empty_l.
  destruct (sufficient (local_text (plumber doc)));
    [unfold ret, trace_of; cbv beta iota zeta; by rewrite ?app_nil_r|].
  unfold bind at 1, put at 1. unfold bind at 1. rewrite E2.
  unfold bind at 1, get at 1. rewrite app_empty_l.
  destruct (sufficient (local_text (pypdf doc)));
    [unfold ret, trace_of; cbv beta iota zeta; by rewrite ?app_nil_r|].
  unfold invoke, result_of, trace_of.
  destruct (ocr_via_gemini fuel (gemini doc) tt) as [[o s] t].
  cbv beta iota zeta. by rewrite ?app_nil_r.
Qed.

Lemma count_event_app e (t1 t2 : list event) :
  count_event e (t1 ++ t2) = count_event e t1 + count_event e t2.
Proof. unfold count_event. by rewrite filter_app, length_app. Qed.

Lemma count_event_absent e (t : list event) :
  Forall (λ x, x ≠ e) t → count_event e t = 0.
Proof.
  unfold count_event. induction 1 as [|x t Hx _ IH]; [done|].
  by rewrite filter_cons_False.
Qed.

End cascade.

(** ** The claims about the cascade *)

(** C1 (cost gate).  When the text that the primary layer leaves is longer
    than 50 characters once trimmed, [extract_text_from_pdf] returns that
    text and the only library calls of the run are those of the primary
    layer: no call of the secondary layer or of the cloud escalator, and no
    entry into [ocr_via_gemini]. *)
Theorem primary_sufficient_stops_cascade fuel doc :
  50 < len (strip (layer1_text doc)) →
  result_of (run_extract fuel doc) = Returns (layer1_text doc)
  ∧ trace_of (run_extract fuel doc) = trace_of (layer1 doc "")
  ∧ Forall (λ e, is_pypdf_event e = false ∧ is_cloud_event e = false)
      (trace_of (run_extract fuel doc))
  ∧ count_event enter_ocr_via_gemini (trace_of (run_extract fuel doc)) = 0.
Proof.
  intros H%sufficient_true.
  rewrite run_extract_eq, H. cbn [result_of trace_of fst snd].
  split; [done|]. split; [done|]. split; [apply layer1_events|].
  apply count_event_absent.
  eapply Forall_impl; [apply layer1_events|].
  intros e [_ He] ->. discriminate.
Qed.

Lemma primary_sufficient_stops_cascade_witness :
  50 < len (strip (layer1_text Examples.text_pdf))
  ∧ result_of (run_extract 0 Examples.text_pdf) = Returns (Examples.clause +:+ nl)
  ∧ trace_of (run_extract 0 Examples.text_pdf)
    = [pdfplumber_open; pdfplumber_extract_text 0; pdfplumber_extract_text 1;
       pdfplumber_extract_text 2; pdfplumber_close].
Proof.
  assert (H : 50 < len (strip (layer1_text Examples.text_pdf))) by (vm_compute; lia).
  split; [exact H|].
  destruct (primary_sufficient_stops_cascade 0 Examples.text_pdf H) as (-> & -> & _).
  split; reflexivity.
Defined.

(** C2 (escalation).  When both local layers leave at most 50 trimmed
    characters, [extract_text_from_pdf] ends as [ocr_via_gemini] ends on the
    same service; its calls are those of the two local layers followed by
    those of the one run of [ocr_via_gemini], which is entered exactly once
    and after which nothing is called; and when a step of the cloud protocol
    raises, the result is the empty string. *)
Theorem local_tiers_insufficient_escalates_once fuel doc :
  len (strip (layer1_text doc)) ≤ 50 →
  len (strip (layer2_text doc)) ≤ 50 →
  result_of (run_extract fuel doc) = result_of (ocr_via_gemini fuel (gemini doc) tt)
  ∧ trace_of (run_extract fuel doc)
    = trace_of (layer1 doc "") ++ trace_of (layer2 doc "")
        ++ trace_of (ocr_via_gemini fuel (gemini doc) tt)
  ∧ count_event enter_ocr_via_gemini (trace_of (run_extract fuel doc)) = 1
  ∧ (∀ k t, cloud_fault (gemini doc) k t → k ≤ fuel →
       result_of (run_extract fuel doc) = Returns "").
Proof.
  intros H1%sufficient_false H2%sufficient_false.
  rewrite run_extract_eq, H1, H2. cbn [result_of trace_of fst snd].
  split; [done|]. split; [done|]. split.
  - rewrite !count_event_app.
    rewrite (count_event_absent _ (layer1 doc "").2).
    2:{ eapply Forall_impl; [apply layer1_events|]. intros e [_ He] ->. discriminate. }
    rewrite (count_event_absent _ (layer2 doc "").2).
    2:{ eapply Forall_impl; [apply layer2_events|]. intros e He ->. discriminate. }
    destruct (ocr_via_gemini_run fuel (gemini doc)) as (o & t & -> & _ & Ht).
    change (trace_of (o, tt, enter_ocr_via_gemini :: t))
      with ([enter_ocr_via_gemini] ++ t).
    rewrite count_event_app, (count_event_absent _ t); [done|].
    eapply Forall_impl; [exact Ht|]. intros e He ->. discriminate.
  - intros k t Hfault Hk.
    by rewrite (ocr_via_gemini_fault _ _ _ _ Hfault Hk).
Qed.

Lemma local_tiers_insufficient_escalates_once_witness :
  len (strip (layer1_text Examples.scanned_pdf)) ≤ 50
  ∧ len (strip (layer2_text Examples.scanned_pdf)) ≤ 50
  ∧ result_of (run_extract 2 Examples.scanned_pdf) = Returns Examples.transcript
  ∧ count_event enter_ocr_via_gemini (trace_of (run_extract 2 Examples.scanned_pdf)) = 1.
Proof.
  assert (H1 : len (strip (layer1_text Examples.scanned_pdf)) ≤ 50) by (vm_compute; lia).
  assert (H2 : len (strip (layer2_text Examples.scanned_pdf)) ≤ 50) by (vm_compute; lia).
  split; [exact H1|]. split; [exact H2|].
  destruct (local_tiers_insufficient_escalates_once 2 Examples.scanned_pdf H1 H2)
    as (-> & _ & -> & _).
  split; reflexivity.
Defined.

(** C3 (the cascade never raises).  No run of [extract_text_from_pdf] ends
    with an exception, whatever the libraries answer or raise.  The function
    returns a string as soon as a local layer is sufficient or the cloud
    service settles within the fuel given; and when both local layers are
    insufficient and a step of the cloud protocol raises, that string is
    empty. *)
Theorem extract_text_from_pdf_never_raises fuel doc :
  (∀ e, result_of (run_extract fuel doc) ≠ Raises e)
  ∧ (∀ k, 50 < len (strip (layer1_text doc))
          ∨ 50 < len (strip (layer2_text doc))
          ∨ (cloud_settles (gemini doc) k ∧ k ≤ fuel) →
          ∃ s, result_of (run_extract fuel doc) = Returns s)
  ∧ (∀ k t, len (strip (layer1_text doc)) ≤ 50 →
            len (strip (layer2_text doc)) ≤ 50 →
            cloud_fault (gemini doc) k t → k ≤ fuel →
            result_of (run_extract fuel doc) = Returns "").
Proof.
  rewrite run_extract_eq. repeat split.
  - intros e.
    destruct (sufficient (layer1_text doc)); [done|].
    destruct (sufficient (layer2_text doc)); [done|].
    cbn [result_of fst].
    destruct (ocr_via_gemini_run fuel (gemini doc)) as (o & t & -> & Ho & _).
    apply Ho.
  - intros k Hk.
    destruct (sufficient (layer1_text doc)) eqn:H1; [by eexists|].
    destruct (sufficient (layer2_text doc)) eqn:H2; [by eexists|].
    apply sufficient_false in H1, H2.
    destruct Hk as [?|[?|[Hs Hk]]]; [lia..|].
    cbn [result_of fst]. by eapply ocr_via_gemini_total.
  - intros k t H1%sufficient_false H2%sufficient_false Hfault Hk.
    rewrite H1, H2. cbn [result_of fst].
    by rewrite (ocr_via_gemini_fault _ _ _ _ Hfault Hk).
Qed.

Lemma extract_text_from_pdf_never_raises_witness :
  len (strip (layer1_text Examples.corrupted_pdf)) ≤ 50
  ∧ len (strip (layer2_text Examples.corrupted_pdf)) ≤ 50
  ∧ cloud_fault (gemini Examples.corrupted_pdf) 0 [genai_upload_file]
  ∧ run_extract 0 Examples.corrupted_pdf
    = (Returns "", "",
       [pdfplumber_open; PdfReader_open; enter_ocr_via_gemini; genai_upload_file])
  ∧ result_of (run_extract 0 Examples.corrupted_pdf) = Returns "".
Proof.
  assert (H1 : len (strip (layer1_text Examples.corrupted_pdf)) ≤ 50) by (vm_compute; lia).
  assert (H2 : len (strip (layer2_text Examples.corrupted_pdf)) ≤ 50) by (vm_compute; lia).
  assert (H3 : cloud_fault (gemini Examples.corrupted_pdf) 0 [genai_upload_file])
    by (by eapply fault_upload).
  split; [exact H1|]. split; [exact H2|]. split; [exact H3|]. split; [reflexivity|].
  exact (proj2 (proj2 (extract_text_from_pdf_never_raises 0 Examples.corrupted_pdf))
           0 _ H1 H2 H3 (le_n 0)).
Defined.

(** C4 (the escalator absorbs every fault).  No run of [ocr_via_gemini] ends
    with an exception.  When a step of the protocol raises (the upload, a
    poll, the generation request or the reading of its text), the function
    returns the empty string, and its calls are its entry followed by the
    calls up to the one that raised: nothing is called again. *)
Theorem ocr_via_gemini_absorbs_every_fault fuel svc :
  (∀ e, result_of (ocr_via_gemini fuel svc tt) ≠ Raises e)
  ∧ (∀ k t, cloud_fault svc k t → k ≤ fuel →
       ocr_via_gemini fuel svc tt = (Returns "", tt, enter_ocr_via_gemini :: t)).
Proof.
  split.
  - intros e. destruct (ocr_via_gemini_run fuel svc) as (o & t & -> & Ho & _).
    apply Ho.
  - intros k t. apply ocr_via_gemini_fault.
Qed.

Lemma ocr_via_gemini_absorbs_every_fault_witness :
  cloud_fault Examples.losing_file 2
    [genai_upload_file; time_sleep; genai_get_file 0; time_sleep; genai_get_file 1]
  ∧ 2 ≤ 5
  ∧ ocr_via_gemini 5 Examples.losing_file tt
    = (Returns "", tt,
       [enter_ocr_via_gemini; genai_upload_file; time_sleep; genai_get_file 0;
        time_sleep; genai_get_file 1]).
Proof.
  assert (H : cloud_fault Examples.losing_file 2
                [genai_upload_file; time_sleep; genai_get_file 0;
                 time_sleep; genai_get_file 1]).
  { apply (fault_poll Examples.losing_file (RemoteFile "files/2" "PROCESSING")
             (Exception "404 File not found") 2); [reflexivity|].
    eapply poll_next; [reflexivity..|].
    eapply poll_fault; reflexivity. }
  assert (H' : 2 ≤ 5) by lia.
  split; [exact H|]. split; [exact H'|].
  exact (proj2 (ocr_via_gemini_absorbs_every_fault 5 Examples.losing_file) _ _ H H').
Defined.



(** ** The handlers *)

Section handlers.

Implicit Types (SESSIONS : gmap string session) (generate : generator).

Ltac run := unfold bind, get, put, ret, raise, call, emit, try_except, invoke.

(** [upload_contract] in terms of what the cascade returns. *)
Lemma upload_contract_eq SESSIONS sid fname fuel doc :
  upload_contract sid fname fuel doc SESSIONS =
    match result_of (run_extract fuel doc) with
    | Returns text =>
        if negb (truthy text) || bool_decide (len text < 10)
        then (Raises extraction_failed, SESSIONS, trace_of (run_extract fuel doc))
        else (Returns [("session_id", sid); ("message", "File processed")],
              <[sid := Session text [] fname]> SESSIONS,
              trace_of (run_extract fuel doc))
    | Raises e => (Raises e, SESSIONS, trace_of (run_extract fuel doc))
    | Diverges => (Diverges, SESSIONS, trace_of (run_extract fuel doc))
    end.
Proof.
  unfold upload_contract, run_extract, result_of, trace_of.
  unfold bind at 1, invoke.
  destruct (extract_text_from_pdf fuel doc "") as [[[text|e|] s] t]; cbn [fst snd];
    [|done..].
  destruct (negb (truthy text) || bool_decide (len text < 10)); run; cbn;
    by rewrite ?app_nil_r.
Qed.

Lemma long_enough_iff (text : string) :
  negb (truthy text) || bool_decide (len text < 10) = false
  ↔ text ≠ "" ∧ 10 ≤ len text.
Proof.
  rewrite orb_false_iff, negb_false_iff, bool_decide_eq_false.
  destruct text; cbn; split; intros [? ?]; split; try done; lia.
Qed.

(** [analyze_risks] on a stored session. *)
Lemma analyze_risks_found SESSIONS sid s generate :
  SESSIONS !! sid = Some s →
  let prompt := analyze_prompt (contract_text s) in
  analyze_risks sid generate SESSIONS =
    match generate (Text prompt) with
    | Ok r =>
        match text r with
        | Ok raw =>
            (Returns [("risks",
                       clean_text (replace "```" "" (replace "```json" "" (strip raw))))],
             SESSIONS, [model_generate_content (Text prompt); response_text])
        | Fault _ =>
            (Returns [("risks", empty_risks)], SESSIONS,
             [model_generate_content (Text prompt); response_text])
        end
    | Fault _ =>
        (Returns [("risks", empty_risks)], SESSIONS,
         [model_generate_content (Text prompt)])
    end.
Proof.
  intros Hs prompt. unfold analyze_risks. unfold bind at 1, get. rewrite Hs.
  fold prompt. run.
  destruct (generate (Text prompt)) as [r|e]; [|done].
  by destruct (text r) as [raw|e].
Qed.

(** [chat] on a stored session. *)
Lemma chat_found SESSIONS sid s query generate :
  SESSIONS !! sid = Some s →
  let prompt := chat_prompt (contract_text s) query in
  chat sid query generate SESSIONS =
    match generate (Text prompt) with
    | Ok r =>
        match text r with
        | Ok raw =>
            (Returns [("response", clean_text raw)],
             <[sid := with_turn s query (clean_text raw)]> SESSIONS,
             [model_generate_content (Text prompt); response_text])
        | Fault e =>
            (Raises e, SESSIONS, [model_generate_content (Text prompt); response_text])
        end
    | Fault e => (Raises e, SESSIONS, [model_generate_content (Text prompt)])
    end.
Proof.
  intros Hs prompt. unfold chat. unfold bind at 1, get. rewrite Hs.
  fold prompt. unfold append_chat. run.
  destruct (generate (Text prompt)) as [r|e]; [|done].
  destruct (text r) as [raw|e]; [|done].
  cbn. f_equal. f_equal.
  apply map_eq. intros i. destruct (decide (sid = i)) as [<-|Hne].
  - rewrite !lookup_alter_eq, lookup_insert_eq, Hs. cbn.
    unfold with_turn. by rewrite <-(assoc_L (++)).
  - by rewrite !lookup_alter_ne, lookup_insert_ne.
Qed.

Lemma not_found SESSIONS sid query generate :
  SESSIONS !! sid = None →
  analyze_risks sid generate SESSIONS = (Raises session_not_found, SESSIONS, [])
  ∧ chat sid query generate SESSIONS = (Raises session_not_found, SESSIONS, []).
Proof.
  intros Hs. unfold analyze_risks, chat. unfold bind, get. by rewrite Hs.
Qed.

Lemma rewrite_clause_eq SESSIONS clause generate :
  let prompt := rewrite_prompt clause in
  rewrite_clause clause generate SESSIONS =
    match generate (Text prompt) with
    | Ok r =>
        match text r with
        | Ok raw => (Returns [("rewritten", clean_text raw)], SESSIONS,
                     [model_generate_content (Text prompt); response_text])
        | Fault _ => (Raises rewrite_failed, SESSIONS,
                      [model_generate_content (Text prompt); response_text])
        end
    | Fault _ => (Raises rewrite_failed, SESSIONS, [model_generate_content (Text prompt)])
    end.
Proof.
  intros prompt. unfold rewrite_clause. fold prompt. run.
  destruct (generate (Text prompt)) as [r|e]; [|done].
  by destruct (text r) as [raw|e].
Qed.

End handlers.

(** ** The claims about the handlers *)

(** C5, as the specification states it, fails: the length that line 142
    compares with 10 is that of the untrimmed text.  A scanned page that the
    cloud service transcribes as ["Page 1"] and four line breaks is stored,
    although six characters remain once it is trimmed. *)
Lemma upload_stores_text_shorter_than_10_once_trimmed :
  let text := "Page 1" +:+ nl +:+ nl +:+ nl +:+ nl in
  let r := upload_contract "9a1e" "scan.pdf" 2 Examples.page_number_pdf ∅ in
  result_of (run_extract 2 Examples.page_number_pdf) = Returns text
  ∧ ¬ (is_Some (state_of r !! "9a1e") ↔ text ≠ "" ∧ 10 ≤ len (strip text)).
Proof.
  cbv zeta. split; [reflexivity|].
  intros [H _].
  assert (Hlen : len (strip ("Page 1" +:+ nl +:+ nl +:+ nl +:+ nl)) = 6) by reflexivity.
  rewrite Hlen in H.
  destruct H as [_ H]; [|lia].
  exists (Session ("Page 1" +:+ nl +:+ nl +:+ nl +:+ nl) [] "scan.pdf").
  by vm_compute.
Qed.

(** C5, amended.  For an upload that draws an identifier not in the store
    and whose extraction returns [text]: when [text] is non-empty and at
    least 10 characters long, untrimmed, the session is stored with that text,
    an empty history and the file name, and the identifier is returned;
    otherwise the upload is rejected with the fixed extraction-failure error
    and the store is left as it was.  So the session is in the store exactly
    when the text is long enough, and exactly when the upload returned. *)
Theorem upload_creates_session_iff_text_long_enough
    (SESSIONS : gmap string session) sid fname fuel doc text :
  SESSIONS !! sid = None →
  result_of (run_extract fuel doc) = Returns text →
  let r := upload_contract sid fname fuel doc SESSIONS in
  (text ≠ "" ∧ 10 ≤ len text →
     result_of r = Returns [("session_id", sid); ("message", "File processed")]
     ∧ state_of r = <[sid := Session text [] fname]> SESSIONS)
  ∧ (¬ (text ≠ "" ∧ 10 ≤ len text) →
     result_of r = Raises extraction_failed ∧ state_of r = SESSIONS)
  ∧ (is_Some (state_of r !! sid) ↔ text ≠ "" ∧ 10 ≤ len text)
  ∧ (is_Some (state_of r !! sid) ↔ ∃ rep, result_of r = Returns rep).
Proof.
  intros Hfresh Htext r. subst r.
  rewrite upload_contract_eq, Htext.
  destruct (negb (truthy text) || bool_decide (len text < 10)) eqn:Hlong;
    cbn [result_of state_of fst snd].
  - assert (Hno : ¬ (text ≠ "" ∧ 10 ≤ len text)).
    { intros H%long_enough_iff. congruence. }
    split; [tauto|]. split; [done|]. rewrite Hfresh. split.
    + split; [intros []%is_Some_None|tauto].
    + split; [intros []%is_Some_None|by intros [? ?]].
  - apply long_enough_iff in Hlong.
    split; [done|]. split; [tauto|]. rewrite lookup_insert_eq. split.
    + split; [done|by eexists].
    + split; by eexists.
Qed.

Lemma upload_creates_session_iff_text_long_enough_witness :
  (∅ : gmap string session) !! "7f3c" = None
  ∧ result_of (run_extract 0 Examples.text_pdf) = Returns (Examples.clause +:+ nl)
  ∧ is_Some (Examples.one_session !! "7f3c").
Proof.
  assert (H1 : (∅ : gmap string session) !! "7f3c" = None) by reflexivity.
  assert (H2 : result_of (run_extract 0 Examples.text_pdf)
               = Returns (Examples.clause +:+ nl)) by reflexivity.
  split; [exact H1|]. split; [exact H2|].
  apply (proj1 (proj2 (proj2 (upload_creates_session_iff_text_long_enough
                         ∅ "7f3c" "lease.pdf" 0 Examples.text_pdf _ H1 H2)))).
  split; [done|]. vm_compute. lia.
Defined.

(** C6, as the specification states it, fails: before the emphasis markers,
    [analyze_risks] removes the code fences.  A response that wraps its
    JSON in a fenced block is not returned as [clean_text] alone leaves it. *)
Lemma analyze_risks_removes_code_fences :
  let raw := "```json" +:+ nl +:+ "{}" +:+ nl +:+ "```" in
  clean_text raw = raw
  ∧ result_of (analyze_risks "7f3c" (Examples.answering raw) Examples.one_session)
    = Returns [("risks", "{}")]
  ∧ result_of (analyze_risks "7f3c" (Examples.answering raw) Examples.one_session)
    ≠ Returns [("risks", clean_text raw)].
Proof.
  cbv zeta.
  assert (H : result_of (analyze_risks "7f3c"
                (Examples.answering ("```json" +:+ nl +:+ "{}" +:+ nl +:+ "```"))
                Examples.one_session) = Returns [("risks", "{}")])
    by (by vm_compute).
  split; [reflexivity|]. split; [exact H|]. rewrite H. by vm_compute.
Qed.

(** C6, amended.  For a stored session and a generator that answers [raw],
    [analyze_risks] returns, under the key [risks], the text obtained from
    [raw] by trimming it, removing every [```json] and then every [```],
    and then cleaning it with [clean_text] (emphasis markers removed, then
    trimmed); the store is not changed and the generator is asked once. *)
Theorem analyze_risks_returns_unfenced_cleaned_output
    (SESSIONS : gmap string session) sid s (generate : generator) r raw :
  SESSIONS !! sid = Some s →
  generate (Text (analyze_prompt (contract_text s))) = Ok r →
  text r = Ok raw →
  analyze_risks sid generate SESSIONS
  = (Returns [("risks",
               clean_text (replace "```" "" (replace "```json" "" (strip raw))))],
     SESSIONS,
     [model_generate_content (Text (analyze_prompt (contract_text s))); response_text]).
Proof.
  intros Hs Hg Ht. rewrite (analyze_risks_found _ _ _ _ Hs). cbv zeta.
  by rewrite Hg, Ht.
Qed.

Lemma analyze_risks_returns_unfenced_cleaned_output_witness :
  Examples.one_session !! "7f3c" = Some (Session (Examples.clause +:+ nl) [] "lease.pdf")
  ∧ result_of (analyze_risks "7f3c"
                 (Examples.answering (" **{}** " +:+ nl)) Examples.one_session)
    = Returns [("risks", "{}")].
Proof.
  assert (H : Examples.one_session !! "7f3c"
              = Some (Session (Examples.clause +:+ nl) [] "lease.pdf"))
    by (by vm_compute).
  split; [exact H|].
  rewrite (analyze_risks_returns_unfenced_cleaned_output
             Examples.one_session "7f3c" _ (Examples.answering (" **{}** " +:+ nl))
             (Response (Ok (" **{}** " +:+ nl))) (" **{}** " +:+ nl)
             H eq_refl eq_refl).
  reflexivity.
Defined.

(** Where the sentence of the specification does hold: when the raw output
    has no backquote there is no fence to remove, and [analyze_risks] returns
    what [clean_text] makes of it. *)
Lemma analyze_risks_without_backquote
    (SESSIONS : gmap string session) sid s (generate : generator) r raw :
  SESSIONS !! sid = Some s →
  generate (Text (analyze_prompt (contract_text s))) = Ok r →
  text r = Ok raw →
  has_char "`" raw = false →
  result_of (analyze_risks sid generate SESSIONS) = Returns [("risks", clean_text raw)].
Proof.
  intros Hs Hg Ht Hraw. rewrite (analyze_risks_found _ _ _ _ Hs). cbv zeta.
  rewrite Hg, Ht. cbn [result_of fst].
  apply has_char_strip in Hraw.
  rewrite (replace_absent "`" "``json") by done.
  rewrite (replace_absent "`" "``") by done.
  by rewrite clean_text_strip.
Qed.

(** C8 (not found).  For an identifier that is not in the store,
    [analyze_risks] and [chat] raise the not-found error (status 404) and
    nothing else; the store is left as it was, so no history changes, and
    the generator is not asked. *)
Theorem unknown_session_is_not_found
    (SESSIONS : gmap string session) sid query (generate : generator) :
  SESSIONS !! sid = None →
  analyze_risks sid generate SESSIONS = (Raises session_not_found, SESSIONS, [])
  ∧ chat sid query generate SESSIONS = (Raises session_not_found, SESSIONS, []).
Proof. apply not_found. Qed.

Lemma unknown_session_is_not_found_witness :
  Examples.one_session !! "unknown" = None
  ∧ chat "unknown" "x" (Examples.answering "yes") Examples.one_session
    = (Raises (HTTPException 404 "Session not found"), Examples.one_session, []).
Proof.
  assert (H : Examples.one_session !! "unknown" = None) by (by vm_compute).
  split; [exact H|].
  exact (proj2 (unknown_session_is_not_found Examples.one_session "unknown" "x"
                  (Examples.answering "yes") H)).
Defined.

(** C9 (generator faults).  When the generator raises, in the request or
    when its text is read: [analyze_risks] returns the empty risk list;
    [chat] ends with that same exception, nothing being appended to the
    history; [rewrite_clause] raises the rewrite-failed error (status 500).
    In the three cases the store is left as it was. *)
Theorem generator_fault_handling (SESSIONS : gmap string session) :
  (∀ sid s generate e,
     SESSIONS !! sid = Some s →
     generator_faults generate (analyze_prompt (contract_text s)) e →
     result_of (analyze_risks sid generate SESSIONS) = Returns [("risks", empty_risks)]
     ∧ state_of (analyze_risks sid generate SESSIONS) = SESSIONS)
  ∧ (∀ sid s query generate e,
     SESSIONS !! sid = Some s →
     generator_faults generate (chat_prompt (contract_text s) query) e →
     result_of (chat sid query generate SESSIONS) = Raises e
     ∧ state_of (chat sid query generate SESSIONS) = SESSIONS)
  ∧ (∀ clause generate e,
     generator_faults generate (rewrite_prompt clause) e →
     result_of (rewrite_clause clause generate SESSIONS) = Raises rewrite_failed
     ∧ state_of (rewrite_clause clause generate SESSIONS) = SESSIONS).
Proof.
  split; [|split].
  - intros sid s generate e Hs Hf.
    rewrite (analyze_risks_found _ _ _ _ Hs). cbv zeta.
    by destruct Hf as [->|(r & -> & ->)].
  - intros sid s query generate e Hs Hf.
    rewrite (chat_found _ _ _ _ _ Hs). cbv zeta.
    by destruct Hf as [->|(r & -> & ->)].
  - intros clause generate e Hf.
    rewrite rewrite_clause_eq. cbv zeta.
    by destruct Hf as [->|(r & -> & ->)].
Qed.

Lemma generator_fault_handling_witness :
  Examples.one_session !! "7f3c" = Some (Session (Examples.clause +:+ nl) [] "lease.pdf")
  ∧ generator_faults Examples.failing
      (chat_prompt (Examples.clause +:+ nl) "Who pays?")
      (Exception "429 Resource exhausted")
  ∧ result_of (chat "7f3c" "Who pays?" Examples.failing Examples.one_session)
    = Raises (Exception "429 Resource exhausted")
  ∧ state_of (chat "7f3c" "Who pays?" Examples.failing Examples.one_session)
    = Examples.one_session.
Proof.
  assert (H1 : Examples.one_session !! "7f3c"
               = Some (Session (Examples.clause +:+ nl) [] "lease.pdf"))
    by (by vm_compute).
  assert (H2 : generator_faults Examples.failing
                 (chat_prompt (Examples.clause +:+ nl) "Who pays?")
                 (Exception "429 Resource exhausted"))
    by (left; reflexivity).
  split; [exact H1|]. split; [exact H2|].
  exact (proj1 (proj2 (generator_fault_handling Examples.one_session))
           "7f3c" _ "Who pays?" Examples.failing _ H1 H2).
Defined.

(** ** The chat history *)

Section history.

Implicit Types (SESSIONS : gmap string session) (ms : list chat_message).

Lemma turn_cases sid r o :
  turn sid r o = []
  ∨ ∃ q a, turn sid r o = [ {| role := "user"; content := q |};
                            {| role := "ai"; content := a |} ].
Proof.
  destruct r as [| |sid' q g|]; try by left.
  destruct o as [rep| |]; try by left.
  cbn. case_decide; [right; by eexists _, _|by left].
Qed.

(** One request, whatever it is, appends to the history of [sid] the
    messages of its turn, and nothing when it is not a chat call on [sid]
    that returned. *)
Lemma handle_history sid r SESSIONS :
  match r with Upload sid' _ _ _ => sid' ≠ sid | _ => True end →
  history_of (state_of (handle r SESSIONS)) sid
  = history_of SESSIONS sid ++ turn sid r (result_of (handle r SESSIONS)).
Proof.
  intros Hr. destruct r as [sid' fname fuel doc|sid' g|sid' q g|clause g];
    cbn [handle].
  - rewrite upload_contract_eq.
    destruct (result_of (run_extract fuel doc)) as [text|e|];
      [destruct (negb (truthy text) || bool_decide (len text < 10))|..];
      cbn [state_of result_of fst snd turn]; rewrite ?app_nil_r; try done.
    unfold history_of. by rewrite lookup_insert_ne.
  - destruct (SESSIONS !! sid') as [s|] eqn:Hs.
    + rewrite (analyze_risks_found _ _ _ _ Hs). cbv zeta.
      destruct (g _) as [r|e]; [destruct (text r)|];
        cbn [state_of result_of fst snd turn]; by rewrite app_nil_r.
    + rewrite (proj1 (not_found _ _ "" g Hs)).
      cbn [state_of result_of fst snd turn]. by rewrite app_nil_r.
  - destruct (SESSIONS !! sid') as [s|] eqn:Hs.
    + rewrite (chat_found _ _ _ _ _ Hs). cbv zeta.
      destruct (g _) as [r|e]; [destruct (text r) as [raw|e]|];
        cbn [state_of result_of fst snd turn]; rewrite ?app_nil_r; try done.
      unfold history_of. case_decide as Hsid.
      * subst sid'. by rewrite lookup_insert_eq, Hs.
      * rewrite lookup_insert_ne by done. by rewrite app_nil_r.
    + rewrite (proj2 (not_found _ _ q g Hs)).
      cbn [state_of result_of fst snd turn]. by rewrite app_nil_r.
  - rewrite rewrite_clause_eq. cbv zeta.
    destruct (g _) as [r|e]; [destruct (text r)|];
      cbn [state_of result_of fst snd turn]; by rewrite app_nil_r.
Qed.

Lemma serve_cons r rs SESSIONS :
  serve (r :: rs) SESSIONS
  = (result_of (handle r SESSIONS) :: (serve rs (state_of (handle r SESSIONS))).1,
     (serve rs (state_of (handle r SESSIONS))).2).
Proof. cbn [serve]. by destruct (serve rs _). Qed.

Lemma serve_app rs1 rs2 SESSIONS :
  serve (rs1 ++ rs2) SESSIONS
  = ((serve rs1 SESSIONS).1 ++ (serve rs2 (serve rs1 SESSIONS).2).1,
     (serve rs2 (serve rs1 SESSIONS).2).2).
Proof.
  revert SESSIONS. induction rs1 as [|r rs1 IH]; intros SESSIONS.
  - cbn. by destruct (serve rs2 SESSIONS).
  - rewrite <-app_comm_cons, !serve_cons, IH. done.
Qed.

(** The history of [sid] after a sequence of requests: what it was,
    followed by the turns of the chat calls on [sid] that returned, in
    the order of the calls. *)
Lemma serve_history sid rs :
  never_redrawn sid rs →
  ∀ SESSIONS,
    history_of (serve rs SESSIONS).2 sid
    = history_of SESSIONS sid ++ turns sid rs (serve rs SESSIONS).1.
Proof.
  unfold turns.
  induction 1 as [|r rs Hr _ IH]; intros SESSIONS.
  - cbn. by rewrite app_nil_r.
  - rewrite serve_cons. cbn [fst snd zip_with concat].
    rewrite IH, handle_history by done. by rewrite <-(assoc_L (++)).
Qed.

(** A concatenation of turns has two messages for each non-empty turn,
    and the roles alternate from the user on. *)
Lemma turns_shape sid rs os :
  length (turns sid rs os) = 2 * successful_chats sid rs os
  ∧ ∀ i m, turns sid rs os !! i = Some m → role m = role_at i.
Proof.
  unfold turns, successful_chats.
  revert os. induction rs as [|r rs IH]; intros os; [done|].
  destruct os as [|o os]; [done|].
  cbn [zip_with concat].
  destruct (IH os) as [IHlen IHrole].
  destruct (turn_cases sid r o) as [->|(q & a & ->)].
  - rewrite filter_cons_False by (by intros ?). done.
  - rewrite filter_cons_True by done. split.
    + cbn [app length]. rewrite IHlen. cbn [length]. lia.
    + intros [|[|i]] m Hm; cbn in Hm.
      * by inversion Hm.
      * by inversion Hm.
      * change (role_at (S (S i))) with (role_at i). by apply IHrole.
Qed.

End history.

(** C7 (history ordering).  Take a session whose history is empty, and any
    sequence of requests of any kind and on any session, in which no upload
    draws that session's identifier again.  Afterwards the history of the
    session consists of the turns of the chat calls on it that returned, in
    call order, each turn being the question followed by the answer that the
    caller received; so after [K] such calls its length is [2 * K], the
    messages at even positions carry the role [user] and those at odd
    positions the role [ai].  The history after any first part of the
    sequence is a prefix of the final one: messages are only appended. *)
Theorem chat_history_alternates (SESSIONS : gmap string session) sid rs :
  history_of SESSIONS sid = [] →
  never_redrawn sid rs →
  let os := (serve rs SESSIONS).1 in
  let h := history_of (serve rs SESSIONS).2 sid in
  h = turns sid rs os
  ∧ length h = 2 * successful_chats sid rs os
  ∧ (∀ i m, h !! i = Some m → role m = role_at i)
  ∧ (∀ n, history_of (serve (take n rs) SESSIONS).2 sid `prefix_of` h).
Proof.
  intros Hempty Hrs os h.
  assert (Hh : h = turns sid rs os).
  { subst h os. by rewrite serve_history, Hempty. }
  split; [exact Hh|]. rewrite Hh.
  split; [apply turns_shape|]. split; [apply turns_shape|].
  intros n. rewrite <-Hh. subst h.
  rewrite <-(take_drop n rs) at 2. rewrite serve_app. cbn [snd].
  rewrite (serve_history sid (drop n rs)) by (by apply Forall_drop).
  by apply prefix_app_r.
Qed.

Lemma chat_history_alternates_witness :
  history_of Examples.one_session "7f3c" = []
  ∧ never_redrawn "7f3c" Examples.conversation
  ∧ history_of (serve Examples.conversation Examples.one_session).2 "7f3c"
    = [ {| role := "user"; content := "Who pays?" |};
        {| role := "ai"; content := "The Client." |};
        {| role := "user"; content := "When?" |};
        {| role := "ai"; content := "On delivery." |} ]
  ∧ successful_chats "7f3c" Examples.conversation
      (serve Examples.conversation Examples.one_session).1 = 2.
Proof.
  assert (H1 : history_of Examples.one_session "7f3c" = []) by (by vm_compute).
  assert (H2 : never_redrawn "7f3c" Examples.conversation) by (by repeat constructor).
  split; [exact H1|]. split; [exact H2|].
  rewrite (proj1 (chat_history_alternates Examples.one_session "7f3c"
                    Examples.conversation H1 H2)).
  split; by vm_compute.
Defined.


(** * Further properties *)

(** ** The text cleaner *)

Section cleaning.

Lemma strip_idempotent (s : string) : strip (strip s) = strip s.
Proof.
  destruct (strip_margins s) as (w1 & w2 & H1 & H2 & E).
  apply (f_equal strip) in E.
  rewrite strip_blank_app, strip_app_blank in E by done. done.
Qed.

Lemma len_strip_le (s : string) : len (strip s) ≤ len s.
Proof.
  destruct (strip_margins s) as (w1 & w2 & _ & _ & E).
  apply (f_equal len) in E. rewrite !len_app in E. lia.
Qed.

Lemma lstrip_no_leading_space (s : string) : starts_with_space (lstrip s) = false.
Proof.
  induction s as [|c s IH]; [done|]. cbn [lstrip].
  destruct (isspace c) eqn:Hc; [done|]. by cbn.
Qed.

Lemma rstrip_keeps_head (s : string) :
  starts_with_space s = false → starts_with_space (rstrip s) = false.
Proof.
  destruct s as [|c s]; [done|]. cbn [starts_with_space rstrip]. intros Hc.
  destruct (rstrip s); cbn; by rewrite ?Hc.
Qed.

Lemma strip_no_leading_space (s : string) : starts_with_space (strip s) = false.
Proof. apply rstrip_keeps_head, lstrip_no_leading_space. Qed.

Lemma without_char_gone c (s : string) : has_char c (without_char c s) = false.
Proof.
  induction s as [|a s IH]; [done|]. cbn [without_char].
  destruct (Ascii.eqb c a) eqn:E; [done|]. cbn [has_char]. by rewrite E, IH.
Qed.

Lemma clean_text_no_star (s : string) : has_char "*" (clean_text s) = false.
Proof. rewrite clean_text_eq. apply has_char_strip, without_char_gone. Qed.

End cleaning.

(** X1.  Cleaning twice gives what cleaning once gives. *)
Theorem clean_text_idempotent (s : string) :
  clean_text (clean_text s) = clean_text s.
Proof.
  rewrite (clean_text_eq (clean_text s)).
  rewrite without_char_absent by apply clean_text_no_star.
  rewrite clean_text_eq. apply strip_idempotent.
Qed.

(** X2.  What [clean_text] returns holds no asterisk, and neither starts nor
    ends with white space. *)
Theorem clean_text_is_clean (s : string) :
  has_char "*" (clean_text s) = false
  ∧ starts_with_space (clean_text s) = false
  ∧ ends_with_space (clean_text s) = false.
Proof.
  split; [apply clean_text_no_star|]. rewrite clean_text_eq.
  split; [apply strip_no_leading_space|apply strip_no_trailing_space].
Qed.

(** X3.  [clean_text] leaves a text as it is exactly when the text holds no
    asterisk and trimming does not change it. *)
Theorem clean_text_fixed_iff (s : string) :
  clean_text s = s ↔ has_char "*" s = false ∧ strip s = s.
Proof.
  split.
  - intros E. split.
    + rewrite <-E. apply clean_text_no_star.
    + rewrite <-E, clean_text_eq. apply strip_idempotent.
  - intros [Hstar Hstrip]. by rewrite clean_text_eq, without_char_absent.
Qed.

(** ** The local layers and the cascade *)

Section more_cascade.

Lemma joined_pages_app (pages1 pages2 : list (answer (option string))) :
  joined_pages (pages1 ++ pages2) = joined_pages pages1 +:+ joined_pages pages2.
Proof.
  induction pages1 as [|page rest IH]; [done|].
  destruct page as [[[|c t]|]|e]; cbn [app joined_pages]; try exact IH.
  by rewrite IH, !app_assoc_str.
Qed.

Lemma blank_app (s t : string) : blank (s +:+ t) = blank s && blank t.
Proof.
  induction s as [|c s IH]; [done|].
  rewrite app_cons. cbn [blank]. by rewrite IH, andb_assoc.
Qed.

Lemma strip_blank (w : string) : blank w = true → strip w = "".
Proof.
  intros Hw. by rewrite <-(app_empty_r w), strip_blank_app.
Qed.

Lemma joined_pages_blank pages :
  Forall (λ p, blank_page p = true) pages → blank (joined_pages pages) = true.
Proof.
  induction 1 as [|page rest Hp _ IH]; [done|].
  destruct page as [[[|c t]|]|e]; cbn [joined_pages]; try exact IH.
  rewrite !blank_app, IH. cbn [blank_page] in Hp. by rewrite Hp.
Qed.

Lemma blank_pages_insufficient (r : pdf_run) :
  Forall (λ p, blank_page p = true) (page_answers r) →
  sufficient (local_text r) = false.
Proof.
  intros H. apply sufficient_false. unfold local_text.
  destruct (opening r); [|cbn; lia].
  rewrite strip_blank by by apply joined_pages_blank. cbn. lia.
Qed.

(** The run of the cascade when both local layers are insufficient. *)
Lemma escalation_run fuel doc :
  sufficient (layer1_text doc) = false →
  sufficient (layer2_text doc) = false →
  result_of (run_extract fuel doc) = result_of (ocr_via_gemini fuel (gemini doc) tt)
  ∧ trace_of (run_extract fuel doc)
    = trace_of (layer1 doc "") ++ trace_of (layer2 doc "")
        ++ trace_of (ocr_via_gemini fuel (gemini doc) tt)
  ∧ count_event enter_ocr_via_gemini (trace_of (run_extract fuel doc)) = 1.
Proof.
  intros H1 H2. rewrite run_extract_eq, H1, H2. cbn [result_of trace_of fst snd].
  split; [done|]. split; [done|].
  rewrite !count_event_app.
  rewrite (count_event_absent _ (layer1 doc "").2).
  2:{ eapply Forall_impl; [apply layer1_events|]. intros e [_ He] ->. discriminate. }
  rewrite (count_event_absent _ (layer2 doc "").2).
  2:{ eapply Forall_impl; [apply layer2_events|]. intros e He ->. discriminate. }
  destruct (ocr_via_gemini_run fuel (gemini doc)) as (o & t & -> & _ & Ht).
  change (trace_of (o, tt, enter_ocr_via_gemini :: t))
    with ([enter_ocr_via_gemini] ++ t).
  rewrite count_event_app, (count_event_absent _ t); [done|].
  eapply Forall_impl; [exact Ht|]. intros e He ->. discriminate.
Qed.

Lemma cloud_calls_none (t : list event) :
  Forall (λ e, is_cloud_event e = false) t → cloud_calls t = [].
Proof.
  unfold cloud_calls. induction 1 as [|e t He _ IH]; [done|].
  rewrite filter_cons_False by (by rewrite He). exact IH.
Qed.

End more_cascade.

(** X4.  When the primary layer is insufficient and the secondary layer
    leaves more than 50 trimmed characters, [extract_text_from_pdf] returns
    the text of the secondary layer; the calls of the run are those of the
    two local layers, and no call of the cloud escalator is among them. *)
Theorem secondary_sufficient_skips_cloud fuel doc :
  len (strip (layer1_text doc)) ≤ 50 →
  50 < len (strip (layer2_text doc)) →
  result_of (run_extract fuel doc) = Returns (layer2_text doc)
  ∧ trace_of (run_extract fuel doc) = trace_of (layer1 doc "") ++ trace_of (layer2 doc "")
  ∧ cloud_calls (trace_of (run_extract fuel doc)) = []
  ∧ count_event enter_ocr_via_gemini (trace_of (run_extract fuel doc)) = 0.
Proof.
  intros H1%sufficient_false H2%sufficient_true.
  rewrite run_extract_eq, H1, H2. cbn [result_of trace_of fst snd].
  assert (Hno : Forall (λ e, is_cloud_event e = false)
                  ((layer1 doc "").2 ++ (layer2 doc "").2)).
  { apply Forall_app. split; [|apply layer2_events].
    eapply Forall_impl; [apply layer1_events|]. by intros e [_ ?]. }
  split; [done|]. split; [done|]. split; [by apply cloud_calls_none|].
  apply count_event_absent. eapply Forall_impl; [exact Hno|].
  intros e He ->. discriminate.
Qed.

Lemma secondary_sufficient_skips_cloud_witness :
  len (strip (layer1_text Examples.second_tier_pdf)) ≤ 50
  ∧ 50 < len (strip (layer2_text Examples.second_tier_pdf))
  ∧ trace_of (run_extract 0 Examples.second_tier_pdf)
    = [pdfplumber_open; PdfReader_open; pypdf_extract_text 0; pypdf_extract_text 1;
       pypdf_pages_end].
Proof.
  assert (H1 : len (strip (layer1_text Examples.second_tier_pdf)) ≤ 50)
    by (vm_compute; lia).
  assert (H2 : 50 < len (strip (layer2_text Examples.second_tier_pdf)))
    by (vm_compute; lia).
  split; [exact H1|]. split; [exact H2|].
  destruct (secondary_sufficient_skips_cloud 0 Examples.second_tier_pdf H1 H2)
    as (_ & -> & _).
  reflexivity.
Defined.

(** X5.  A page whose extraction raises is skipped and the loop goes on:
    every page, before and after it, is still asked, in order, and the text
    gathered is the one that the same pages give without the failing one. *)
Theorem failing_page_is_skipped (extract : nat → event) i
    (before after : list (answer (option string))) e (full_text : string) :
  pages_loop extract i (before ++ Fault e :: after) full_text
  = (Returns tt,
     state_of (pages_loop extract i (before ++ after) full_text),
     extract <$> seq i (length before + 1 + length after)).
Proof.
  rewrite !pages_loop_run. cbn [state_of fst snd].
  rewrite !joined_pages_app. cbn [joined_pages].
  rewrite length_app. cbn [length]. do 3 f_equal. lia.
Qed.

(** X6.  Pages of white space do not count: when every page of both local
    layers raises, or gives [None] or white space only, however long, both
    layers are insufficient and the cloud escalator is entered, once. *)
Theorem blank_pages_escalate fuel doc :
  Forall (λ p, blank_page p = true) (page_answers (plumber doc)) →
  Forall (λ p, blank_page p = true) (page_answers (pypdf doc)) →
  result_of (run_extract fuel doc) = result_of (ocr_via_gemini fuel (gemini doc) tt)
  ∧ count_event enter_ocr_via_gemini (trace_of (run_extract fuel doc)) = 1.
Proof.
  intros H1%blank_pages_insufficient H2%blank_pages_insufficient.
  rewrite <-layer1_text_eq in H1. rewrite <-layer2_text_eq in H2.
  destruct (escalation_run fuel doc H1 H2) as (? & _ & ?). done.
Qed.

Lemma blank_pages_escalate_witness :
  Forall (λ p, blank_page p = true) (page_answers (plumber Examples.whitespace_pdf))
  ∧ Forall (λ p, blank_page p = true) (page_answers (pypdf Examples.whitespace_pdf))
  ∧ len (layer1_text Examples.whitespace_pdf) = 122
  ∧ result_of (run_extract 2 Examples.whitespace_pdf) = Returns Examples.transcript.
Proof.
  assert (H1 : Forall (λ p, blank_page p = true)
                 (page_answers (plumber Examples.whitespace_pdf)))
    by (repeat constructor).
  assert (H2 : Forall (λ p, blank_page p = true)
                 (page_answers (pypdf Examples.whitespace_pdf)))
    by (repeat constructor).
  split; [exact H1|]. split; [exact H2|]. split; [reflexivity|].
  destruct (blank_pages_escalate 2 Examples.whitespace_pdf H1 H2) as [-> _].
  reflexivity.
Defined.

(** ** The cloud escalator *)

Section more_escalator.

Lemma poll_stuck svc :
  always_processing svc →
  ∀ fuel n f, state_name f = "PROCESSING" →
    poll fuel n svc f tt = (Diverges, tt, poll_trace n fuel).
Proof.
  intros Hsvc. induction fuel as [|fuel IH]; intros n f Hf; simpl;
    rewrite decide_True by done; [done|].
  destruct (Hsvc n (name f)) as (f' & Hg & Hf').
  unfold bind at 1 2, emit, call. rewrite Hg.
  rewrite (IH (S n) f' Hf'). by rewrite poll_trace_S.
Qed.

End more_escalator.

(** X7.  When the upload is accepted, the file leaves the processing state
    after [k] polls and the generator answers [raw], [ocr_via_gemini]
    returns [raw] as it is, neither trimmed nor cleaned.  It has slept once
    before each of the [k] polls and has sent one generation request, with
    the handle of the last poll and the fixed instruction. *)
Theorem ocr_via_gemini_returns_transcription svc f f' k r raw fuel :
  upload_file svc = Ok f →
  poll_run svc 0 f (Ok f') k →
  generate_content svc (FileAndText f' ocr_prompt) = Ok r →
  text r = Ok raw →
  k ≤ fuel →
  ocr_via_gemini fuel svc tt
  = (Returns raw, tt,
     enter_ocr_via_gemini :: genai_upload_file :: poll_trace 0 k
       ++ [model_generate_content (FileAndText f' ocr_prompt); response_text]).
Proof.
  intros Hu Hp Hg Ht Hk.
  unfold ocr_via_gemini, ocr_body, try_except, bind, emit, call, ret.
  rewrite Hu, (poll_run_sound _ _ _ _ _ Hp fuel Hk). cbn.
  rewrite Hg, Ht. by rewrite ?app_nil_r.
Qed.

Lemma ocr_via_gemini_returns_transcription_witness :
  poll_run (Examples.transcribing ("  Page 1 " +:+ nl)) 0
    (RemoteFile "files/1" "PROCESSING") (Ok (RemoteFile "files/1" "ACTIVE")) 2
  ∧ ocr_via_gemini 2 (Examples.transcribing ("  Page 1 " +:+ nl)) tt
    = (Returns ("  Page 1 " +:+ nl), tt,
       [enter_ocr_via_gemini; genai_upload_file; time_sleep; genai_get_file 0;
        time_sleep; genai_get_file 1;
        model_generate_content (FileAndText (RemoteFile "files/1" "ACTIVE") ocr_prompt);
        response_text]).
Proof.
  assert (H : poll_run (Examples.transcribing ("  Page 1 " +:+ nl)) 0
                (RemoteFile "files/1" "PROCESSING")
                (Ok (RemoteFile "files/1" "ACTIVE")) 2).
  { eapply poll_next; [reflexivity..|].
    eapply poll_next; [reflexivity..|].
    by apply poll_ready. }
  split; [exact H|].
  exact (ocr_via_gemini_returns_transcription
           (Examples.transcribing ("  Page 1 " +:+ nl))
           (RemoteFile "files/1" "PROCESSING") (RemoteFile "files/1" "ACTIVE") 2
           (Response (Ok ("  Page 1 " +:+ nl))) ("  Page 1 " +:+ nl) 2
           eq_refl H eq_refl eq_refl (le_n 2)).
Defined.

(** X8.  The polling loop has no bound of its own: on a service that
    accepts the upload and then answers every poll with a handle still in
    the processing state, [ocr_via_gemini] has not returned after any
    number of iterations; all it has done is to sleep and poll, and no
    generation request was sent. *)
Theorem ocr_via_gemini_polls_for_ever svc f :
  upload_file svc = Ok f →
  state_name f = "PROCESSING" →
  always_processing svc →
  ∀ fuel,
    ocr_via_gemini fuel svc tt
    = (Diverges, tt, enter_ocr_via_gemini :: genai_upload_file :: poll_trace 0 fuel).
Proof.
  intros Hu Hf Hsvc fuel.
  unfold ocr_via_gemini, ocr_body, try_except, bind, emit, call.
  rewrite Hu, (poll_stuck svc Hsvc fuel 0 f Hf). by cbn.
Qed.

Lemma ocr_via_gemini_polls_for_ever_witness :
  always_processing Examples.stuck
  ∧ ocr_via_gemini 3 Examples.stuck tt
    = (Diverges, tt,
       [enter_ocr_via_gemini; genai_upload_file; time_sleep; genai_get_file 0;
        time_sleep; genai_get_file 1; time_sleep; genai_get_file 2]).
Proof.
  assert (H : always_processing Examples.stuck).
  { intros n name. by exists (RemoteFile name "PROCESSING"). }
  split; [exact H|].
  exact (ocr_via_gemini_polls_for_ever Examples.stuck
           (RemoteFile "files/3" "PROCESSING") eq_refl eq_refl H 3).
Defined.

(** X9.  The state of the uploaded file is compared with [PROCESSING] only.
    A handle in any other state, [FAILED] included, is not polled: without
    sleeping, [ocr_via_gemini] sends the generation request with that handle
    and returns its text, or the empty string when the request or the
    reading of its text raises. *)
Theorem ocr_via_gemini_skips_polling svc f fuel :
  upload_file svc = Ok f →
  state_name f ≠ "PROCESSING" →
  let c := FileAndText f ocr_prompt in
  ocr_via_gemini fuel svc tt
  = match generate_content svc c with
    | Ok r =>
        match text r with
        | Ok raw =>
            (Returns raw, tt,
             [enter_ocr_via_gemini; genai_upload_file; model_generate_content c;
              response_text])
        | Fault _ =>
            (Returns "", tt,
             [enter_ocr_via_gemini; genai_upload_file; model_generate_content c;
              response_text])
        end
    | Fault _ =>
        (Returns "", tt,
         [enter_ocr_via_gemini; genai_upload_file; model_generate_content c])
    end.
Proof.
  intros Hu Hf c.
  unfold ocr_via_gemini, ocr_body, try_except, bind, emit, call, ret.
  rewrite Hu.
  rewrite (poll_run_sound svc 0 f (Ok f) 0 (poll_ready svc 0 f Hf) fuel) by lia.
  cbn. fold c. destruct (generate_content svc c) as [r|e]; [|done].
  by destruct (text r).
Qed.

Lemma ocr_via_gemini_skips_polling_witness :
  state_name (RemoteFile "files/4" "FAILED") ≠ "PROCESSING"
  ∧ ocr_via_gemini 0 Examples.failed_processing tt
    = (Returns "", tt,
       [enter_ocr_via_gemini; genai_upload_file;
        model_generate_content (FileAndText (RemoteFile "files/4" "FAILED") ocr_prompt)]).
Proof.
  assert (H : state_name (RemoteFile "files/4" "FAILED") ≠ "PROCESSING") by done.
  split; [exact H|].
  exact (ocr_via_gemini_skips_polling Examples.failed_processing
           (RemoteFile "files/4" "FAILED") 0 eq_refl H).
Defined.

(** ** The session store under a sequence of requests *)

Section more_store.

Implicit Types (SESSIONS : gmap string session) (generate : generator).

Lemma analyze_risks_state SESSIONS sid generate :
  state_of (analyze_risks sid generate SESSIONS) = SESSIONS.
Proof.
  destruct (SESSIONS !! sid) as [s|] eqn:Hs.
  - rewrite (analyze_risks_found _ _ _ _ Hs). cbv zeta.
    destruct (generate _) as [r|e]; [by destruct (text r)|done].
  - by rewrite (proj1 (not_found _ _ "" generate Hs)).
Qed.

Lemma rewrite_clause_state SESSIONS clause generate :
  state_of (rewrite_clause clause generate SESSIONS) = SESSIONS.
Proof.
  rewrite rewrite_clause_eq. cbv zeta.
  destruct (generate _) as [r|e]; [by destruct (text r)|done].
Qed.

(** What [upload_contract] leaves: the store as it was, or the store with
    one session more, whose text passed the guard. *)
Lemma upload_contract_state SESSIONS sid fname fuel doc :
  state_of (upload_contract sid fname fuel doc SESSIONS) = SESSIONS
  ∨ ∃ text, text ≠ "" ∧ 10 ≤ len text
      ∧ state_of (upload_contract sid fname fuel doc SESSIONS)
        = <[sid := Session text [] fname]> SESSIONS.
Proof.
  rewrite upload_contract_eq.
  destruct (result_of (run_extract fuel doc)) as [text|e|]; [|by left..].
  destruct (negb (truthy text) || bool_decide (len text < 10)) eqn:Hlong; [by left|].
  right. exists text. by apply long_enough_iff in Hlong as [? ?].
Qed.

(** What [chat] leaves: the store as it was, or the session with one turn
    more. *)
Lemma chat_state SESSIONS sid query generate :
  state_of (chat sid query generate SESSIONS) = SESSIONS
  ∨ ∃ s a, SESSIONS !! sid = Some s
      ∧ state_of (chat sid query generate SESSIONS)
        = <[sid := with_turn s query a]> SESSIONS.
Proof.
  destruct (SESSIONS !! sid) as [s|] eqn:Hs.
  - rewrite (chat_found _ _ _ _ _ Hs). cbv zeta.
    destruct (generate _) as [r|e]; [|by left].
    destruct (text r) as [raw|e]; [|by left].
    right. by exists s, (clean_text raw).
  - left. by rewrite (proj2 (not_found _ _ query generate Hs)).
Qed.

(** A request that does not address [sid] leaves its entry as it is. *)
Lemma handle_frame sid r SESSIONS :
  ¬ addresses sid r →
  state_of (handle r SESSIONS) !! sid = SESSIONS !! sid.
Proof.
  intros Hr. destruct r as [sid' fname fuel doc|sid' g|sid' q g|clause g];
    cbn [handle addresses] in *.
  - destruct (upload_contract_state SESSIONS sid' fname fuel doc)
      as [->|(text & _ & _ & ->)]; [done|].
    by rewrite lookup_insert_ne.
  - by rewrite analyze_risks_state.
  - destruct (chat_state SESSIONS sid' q g) as [->|(s & a & _ & ->)]; [done|].
    by rewrite lookup_insert_ne.
  - by rewrite rewrite_clause_state.
Qed.

(** No request removes a session, and only an upload that draws its
    identifier again changes its text or its file name. *)
Lemma handle_keeps sid r SESSIONS s :
  SESSIONS !! sid = Some s →
  ∃ s', state_of (handle r SESSIONS) !! sid = Some s'
        ∧ (match r with Upload sid' _ _ _ => sid' ≠ sid | _ => True end →
           contract_text s' = contract_text s ∧ filename s' = filename s).
Proof.
  intros Hs. destruct r as [sid' fname fuel doc|sid' g|sid' q g|clause g];
    cbn [handle].
  - destruct (upload_contract_state SESSIONS sid' fname fuel doc)
      as [->|(text & _ & _ & ->)]; [by exists s|].
    destruct (decide (sid' = sid)) as [->|Hne].
    + rewrite lookup_insert_eq. eexists. split; [done|]. by intros ?.
    + rewrite lookup_insert_ne by done. by exists s.
  - rewrite analyze_risks_state. by exists s.
  - destruct (chat_state SESSIONS sid' q g) as [->|(s0 & a & Hs0 & ->)];
      [by exists s|].
    destruct (decide (sid' = sid)) as [->|Hne].
    + rewrite lookup_insert_eq. eexists. split; [done|].
      intros _. rewrite Hs in Hs0. by injection Hs0 as <-.
    + rewrite lookup_insert_ne by done. by exists s.
  - rewrite rewrite_clause_state. by exists s.
Qed.

Lemma whole_turns_nil : whole_turns [].
Proof. split; [done|]. by intros i m. Qed.

Lemma whole_turns_turn h query a :
  whole_turns h →
  whole_turns (h ++ [ {| role := "user"; content := query |};
                      {| role := "ai"; content := a |} ]).
Proof.
  intros [Heven Hroles]. split.
  - rewrite length_app. cbn [length].
    replace (length h + 2) with (S (S (length h))) by lia. exact Heven.
  - intros i m [Hm|[Hi Hm]]%lookup_app_Some; [by apply Hroles|].
    unfold role_at.
    destruct (i - length h) as [|[|j]] eqn:Hj; cbn in Hm; [| |done];
      injection Hm as <-; cbn [role].
    + replace i with (length h) by lia. by rewrite Heven.
    + replace i with (S (length h)) by lia.
      by rewrite Nat.even_succ, <-Nat.negb_even, Heven.
Qed.

Lemma handle_well_formed r SESSIONS :
  well_formed SESSIONS → well_formed (state_of (handle r SESSIONS)).
Proof.
  intros Hwf. destruct r as [sid' fname fuel doc|sid' g|sid' q g|clause g];
    cbn [handle].
  - destruct (upload_contract_state SESSIONS sid' fname fuel doc)
      as [->|(text & Hne & Hlen & ->)]; [done|].
    intros sid s [[<- <-]|[_ Hs]]%lookup_insert_Some; [|by eapply Hwf].
    cbn. split; [done|]. split; [done|]. apply whole_turns_nil.
  - by rewrite analyze_risks_state.
  - destruct (chat_state SESSIONS sid' q g) as [->|(s0 & a & Hs0 & ->)]; [done|].
    intros sid s [[<- <-]|[_ Hs]]%lookup_insert_Some; [|by eapply Hwf].
    destruct (Hwf _ _ Hs0) as (? & ? & ?). cbn.
    split; [done|]. split; [done|]. by apply whole_turns_turn.
  - by rewrite rewrite_clause_state.
Qed.

Lemma serve_well_formed rs :
  ∀ SESSIONS, well_formed SESSIONS → well_formed (serve rs SESSIONS).2.
Proof.
  induction rs as [|r rs IH]; intros SESSIONS Hwf; [done|].
  rewrite serve_cons. cbn [snd]. by apply IH, handle_well_formed.
Qed.

End more_store.

(** X10.  Sessions persist: whatever requests are served, a session that is
    in the store is still there afterwards; and as long as no upload draws
    its identifier again, its contract text and its file name are the ones
    it was created with. *)
Theorem sessions_persist (SESSIONS : gmap string session) rs sid s :
  SESSIONS !! sid = Some s →
  ∃ s', (serve rs SESSIONS).2 !! sid = Some s'
        ∧ (never_redrawn sid rs →
           contract_text s' = contract_text s ∧ filename s' = filename s).
Proof.
  revert SESSIONS s. induction rs as [|r rs IH]; intros SESSIONS s Hs.
  - exists s. by split.
  - rewrite serve_cons. cbn [snd].
    destruct (handle_keeps sid r SESSIONS s Hs) as (s1 & Hs1 & Hsame).
    destruct (IH _ _ Hs1) as (s' & Hs' & Hsame').
    exists s'. split; [done|].
    intros [Hr Hrs]%Forall_cons.
    destruct (Hsame Hr) as [E1 E2]. destruct (Hsame' Hrs) as [E1' E2'].
    split; congruence.
Qed.

Lemma sessions_persist_witness :
  Examples.one_session !! "7f3c" = Some (Session (Examples.clause +:+ nl) [] "lease.pdf")
  ∧ never_redrawn "7f3c" Examples.conversation
  ∧ ∃ s', (serve Examples.conversation Examples.one_session).2 !! "7f3c" = Some s'
          ∧ contract_text s' = Examples.clause +:+ nl ∧ filename s' = "lease.pdf".
Proof.
  assert (H1 : Examples.one_session !! "7f3c"
               = Some (Session (Examples.clause +:+ nl) [] "lease.pdf"))
    by (by vm_compute).
  assert (H2 : never_redrawn "7f3c" Examples.conversation) by (by repeat constructor).
  split; [exact H1|]. split; [exact H2|].
  destruct (sessions_persist Examples.one_session Examples.conversation "7f3c" _ H1)
    as (s' & Hs' & Hsame).
  exists s'. split; [exact Hs'|]. exact (Hsame H2).
Defined.

(** X11.  Sessions are independent: requests that neither upload under the
    identifier [sid] nor chat on [sid] leave the entry of [sid], present or
    absent, exactly as it was; analysing [sid] and rewriting clauses are
    among them. *)
Theorem other_requests_leave_session_alone (SESSIONS : gmap string session) rs sid :
  Forall (λ r, ¬ addresses sid r) rs →
  (serve rs SESSIONS).2 !! sid = SESSIONS !! sid.
Proof.
  intros Hrs. revert SESSIONS. induction Hrs as [|r rs Hr _ IH]; intros SESSIONS.
  - done.
  - rewrite serve_cons. cbn [snd]. by rewrite IH, handle_frame.
Qed.

Lemma other_requests_leave_session_alone_witness :
  Forall (λ r, ¬ addresses "7f3c" r)
    [Upload "9a1e" "scan.pdf" 2 Examples.scanned_pdf;
     Chat "9a1e" "Who signs?" (Examples.answering "The Supplier.");
     Analyze "7f3c" (Examples.answering "{}");
     Rewrite "The Client pays." Examples.failing]
  ∧ (serve [Upload "9a1e" "scan.pdf" 2 Examples.scanned_pdf;
            Chat "9a1e" "Who signs?" (Examples.answering "The Supplier.");
            Analyze "7f3c" (Examples.answering "{}");
            Rewrite "The Client pays." Examples.failing]
       Examples.one_session).2 !! "7f3c"
    = Examples.one_session !! "7f3c".
Proof.
  assert (H : Forall (λ r, ¬ addresses "7f3c" r)
                [Upload "9a1e" "scan.pdf" 2 Examples.scanned_pdf;
                 Chat "9a1e" "Who signs?" (Examples.answering "The Supplier.");
                 Analyze "7f3c" (Examples.answering "{}");
                 Rewrite "The Client pays." Examples.failing]).
  { repeat first [apply Forall_cons; split | apply Forall_nil_2];
      cbn [addresses]; try discriminate; tauto. }
  split; [exact H|].
  exact (other_requests_leave_session_alone Examples.one_session _ "7f3c" H).
Defined.

(** X12.  Starting from the empty store of line 33, whatever requests are
    served, in whatever order and with whatever outcome, every stored
    session has a non-empty contract text of at least 10 characters and a
    history of whole turns: an even number of messages, with the role [user]
    at the even positions and [ai] at the odd ones. *)
Theorem store_is_always_well_formed rs : well_formed (serve rs ∅).2.
Proof.
  apply serve_well_formed. intros sid s Hs. by rewrite lookup_empty in Hs.
Qed.

(** ** The handlers, one request at a time *)

Section more_handlers.




Lemma sufficient_long_enough (text : string) :
  sufficient text = true →
  negb (truthy text) || bool_decide (len text < 10) = false.
Proof.
  intros H%sufficient_true. apply long_enough_iff.
  pose proof (len_strip_le text). split; [|lia].
  intros ->. cbn in H. lia.
Qed.

End more_handlers.

(** X13.  On a stored session [analyze_risks] always answers: whatever the
    generator does, it returns a reply with the one field [risks], it does
    not change the store, and it has asked the generator once, with the
    prompt built from the stored text. *)
Theorem analyze_risks_always_answers
    (SESSIONS : gmap string session) sid s (generate : generator) :
  SESSIONS !! sid = Some s →
  ∃ out t,
    analyze_risks sid generate SESSIONS
    = (Returns [("risks", out)], SESSIONS,
       model_generate_content (Text (analyze_prompt (contract_text s))) :: t)
    ∧ (t = [] ∨ t = [response_text]).
Proof.
  intros Hs. rewrite (analyze_risks_found _ _ _ _ Hs). cbv zeta.
  destruct (generate _) as [r|e]; [destruct (text r)|];
    eexists _, _; (split; [reflexivity|]); auto.
Qed.

Lemma analyze_risks_always_answers_witness :
  Examples.one_session !! "7f3c" = Some (Session (Examples.clause +:+ nl) [] "lease.pdf")
  ∧ result_of (analyze_risks "7f3c" Examples.failing Examples.one_session)
    = Returns [("risks", empty_risks)].
Proof.
  assert (H : Examples.one_session !! "7f3c"
              = Some (Session (Examples.clause +:+ nl) [] "lease.pdf"))
    by (by vm_compute).
  split; [exact H|].
  destruct (analyze_risks_always_answers Examples.one_session "7f3c" _
              Examples.failing H) as (out & t & E & _).
  rewrite E. cbn [result_of fst]. do 3 f_equal.
  apply (f_equal result_of) in E. vm_compute in E. by injection E as <-.
Defined.

(** X14.  [rewrite_clause] does not use the store: it leaves it as it is
    and ends in the same way on any store.  It ends either by returning the
    generator's text cleaned by [clean_text], or with the rewrite-failed
    error; no exception of the generator gets through. *)
Theorem rewrite_clause_is_stateless
    (SESSIONS SESSIONS' : gmap string session) clause (generate : generator) :
  state_of (rewrite_clause clause generate SESSIONS) = SESSIONS
  ∧ result_of (rewrite_clause clause generate SESSIONS)
    = result_of (rewrite_clause clause generate SESSIONS')
  ∧ ((∃ r raw, generate (Text (rewrite_prompt clause)) = Ok r ∧ text r = Ok raw
        ∧ result_of (rewrite_clause clause generate SESSIONS)
          = Returns [("rewritten", clean_text raw)])
     ∨ result_of (rewrite_clause clause generate SESSIONS) = Raises rewrite_failed).
Proof.
  rewrite !rewrite_clause_eq. cbv zeta.
  destruct (generate _) as [r|e] eqn:Hg; [destruct (text r) as [raw|e] eqn:Ht|];
    (split; [done|]); (split; [done|]); [left|by right..].
  by exists r, raw.
Qed.


(** X16.  An upload that returns hands out the identifier under which the
    extracted text is stored, with an empty history and the name of the
    file.  On the store it leaves, [analyze_risks] with that identifier
    answers, and [chat] with it asks the generator about the stored text:
    neither reports the session as missing. *)
Theorem uploaded_session_is_served
    (SESSIONS : gmap string session) sid fname fuel doc rep :
  result_of (upload_contract sid fname fuel doc SESSIONS) = Returns rep →
  let after := state_of (upload_contract sid fname fuel doc SESSIONS) in
  field "session_id" rep = sid
  ∧ ∃ text,
      result_of (run_extract fuel doc) = Returns text
      ∧ after !! sid = Some (Session text [] fname)
      ∧ (∀ generate, ∃ out,
           result_of (analyze_risks sid generate after) = Returns [("risks", out)])
      ∧ (∀ query generate, ∃ t,
           trace_of (chat sid query generate after)
           = model_generate_content (Text (chat_prompt text query)) :: t).
Proof.
  rewrite upload_contract_eq.
  destruct (result_of (run_extract fuel doc)) as [txt|e|] eqn:Hx; [|done..].
  destruct (negb (truthy txt) || bool_decide (len txt < 10)); [done|].
  cbn [result_of state_of fst snd]. intros [= <-]. cbv zeta.
  split; [done|]. exists txt. split; [done|].
  assert (Hs : (<[sid := Session txt [] fname]> SESSIONS) !! sid
               = Some (Session txt [] fname)) by apply lookup_insert_eq.
  split; [exact Hs|]. split.
  - intros generate. rewrite (analyze_risks_found _ _ _ _ Hs). cbv zeta.
    destruct (generate _) as [r|e]; [destruct (text r)|]; by eexists.
  - intros query generate. rewrite (chat_found _ _ _ _ _ Hs). cbv zeta.
    cbn [contract_text].
    destruct (generate _) as [r|e]; [destruct (text r)|]; by eexists.
Qed.

Lemma uploaded_session_is_served_witness :
  result_of (upload_contract "9a1e" "scan.pdf" 2 Examples.scanned_pdf
               Examples.one_session)
  = Returns [("session_id", "9a1e"); ("message", "File processed")]
  ∧ ∃ text,
      result_of (run_extract 2 Examples.scanned_pdf) = Returns text
      ∧ state_of (upload_contract "9a1e" "scan.pdf" 2 Examples.scanned_pdf
                    Examples.one_session) !! "9a1e"
        = Some (Session text [] "scan.pdf").
Proof.
  assert (H : result_of (upload_contract "9a1e" "scan.pdf" 2 Examples.scanned_pdf
                           Examples.one_session)
              = Returns [("session_id", "9a1e"); ("message", "File processed")])
    by (by vm_compute).
  split; [exact H|].
  destruct (uploaded_session_is_served Examples.one_session "9a1e" "scan.pdf" 2
              Examples.scanned_pdf _ H) as (_ & text & Hx & Hs & _).
  by exists text.
Defined.

(** X17.  The text of a local layer that passes the check also passes the
    guard of the upload, so such an upload is accepted.  An upload is
    rejected with the extraction-failure error only after both local layers
    were found insufficient and the cloud escalator was entered, once; the
    store is then left as it was. *)
Theorem upload_is_rejected_only_after_the_cloud
    (SESSIONS : gmap string session) sid fname fuel doc :
  (50 < len (strip (layer1_text doc)) ∨ 50 < len (strip (layer2_text doc)) →
   result_of (upload_contract sid fname fuel doc SESSIONS)
   = Returns [("session_id", sid); ("message", "File processed")])
  ∧ (result_of (upload_contract sid fname fuel doc SESSIONS) = Raises extraction_failed →
     len (strip (layer1_text doc)) ≤ 50
     ∧ len (strip (layer2_text doc)) ≤ 50
     ∧ count_event enter_ocr_via_gemini
         (trace_of (upload_contract sid fname fuel doc SESSIONS)) = 1
     ∧ state_of (upload_contract sid fname fuel doc SESSIONS) = SESSIONS).
Proof.
  rewrite upload_contract_eq.
  destruct (sufficient (layer1_text doc)) eqn:H1.
  { rewrite run_extract_eq, H1. cbn [result_of trace_of fst snd].
    rewrite (sufficient_long_enough _ H1). by split. }
  destruct (sufficient (layer2_text doc)) eqn:H2.
  { rewrite run_extract_eq, H1, H2. cbn [result_of trace_of fst snd].
    rewrite (sufficient_long_enough _ H2). by split. }
  destruct (escalation_run fuel doc H1 H2) as (_ & _ & Hcount).
  apply sufficient_false in H1, H2. split; [lia|].
  destruct (result_of (run_extract fuel doc)) as [text|e|];
    [destruct (negb (truthy text) || bool_decide (len text < 10))|..];
    cbn [result_of state_of trace_of fst snd]; intros Hr; try done.
Qed.

Lemma upload_is_rejected_only_after_the_cloud_witness :
  result_of (upload_contract "c03d" "broken.pdf" 0 Examples.corrupted_pdf
               Examples.one_session) = Raises extraction_failed
  ∧ count_event enter_ocr_via_gemini
      (trace_of (upload_contract "c03d" "broken.pdf" 0 Examples.corrupted_pdf
                   Examples.one_session)) = 1
  ∧ state_of (upload_contract "c03d" "broken.pdf" 0 Examples.corrupted_pdf
                Examples.one_session) = Examples.one_session.
Proof.
  assert (H : result_of (upload_contract "c03d" "broken.pdf" 0 Examples.corrupted_pdf
                           Examples.one_session) = Raises extraction_failed)
    by (by vm_compute).
  split; [exact H|].
  destruct (proj2 (upload_is_rejected_only_after_the_cloud Examples.one_session
                     "c03d" "broken.pdf" 0 Examples.corrupted_pdf) H)
    as (_ & _ & Hc & Hs).
  by split.
Defined.

(** ** The cascade and the upload guard together *)

Section more_upload.

Lemma ocr_via_gemini_result svc f f' k r raw fuel :
  upload_file svc = Ok f →
  poll_run svc 0 f (Ok f') k →
  generate_content svc (FileAndText f' ocr_prompt) = Ok r →
  text r = Ok raw →
  k ≤ fuel →
  result_of (ocr_via_gemini fuel svc tt) = Returns raw.
Proof.
  intros Hu Hp Hg Ht Hk.
  unfold ocr_via_gemini, ocr_body, try_except, bind, emit, call, ret.
  rewrite Hu, (poll_run_sound _ _ _ _ _ Hp fuel Hk). cbn.
  by rewrite Hg, Ht.
Qed.

End more_upload.

(** X18.  The check of 50 trimmed characters is not applied to the cloud
    tier.  When both local layers are insufficient and the cloud service
    transcribes the file as [raw], [extract_text_from_pdf] returns [raw]
    whatever its length, and the upload is decided by the guard of line 142
    alone: a session holding [raw] is stored when [raw] has at least 10
    characters, and the upload is rejected, the store being left as it was,
    when it has fewer. *)
Theorem cloud_text_is_judged_by_the_upload_guard_only
    (SESSIONS : gmap string session) sid fname fuel doc f f' k r raw :
  len (strip (layer1_text doc)) ≤ 50 →
  len (strip (layer2_text doc)) ≤ 50 →
  upload_file (gemini doc) = Ok f →
  poll_run (gemini doc) 0 f (Ok f') k →
  generate_content (gemini doc) (FileAndText f' ocr_prompt) = Ok r →
  text r = Ok raw →
  k ≤ fuel →
  result_of (run_extract fuel doc) = Returns raw
  ∧ (10 ≤ len raw →
     upload_contract sid fname fuel doc SESSIONS
     = (Returns [("session_id", sid); ("message", "File processed")],
        <[sid := Session raw [] fname]> SESSIONS,
        trace_of (run_extract fuel doc)))
  ∧ (len raw < 10 →
     upload_contract sid fname fuel doc SESSIONS
     = (Raises extraction_failed, SESSIONS, trace_of (run_extract fuel doc))).
Proof.
  intros H1%sufficient_false H2%sufficient_false Hu Hp Hg Ht Hk.
  assert (Hx : result_of (run_extract fuel doc) = Returns raw).
  { destruct (escalation_run fuel doc H1 H2) as (-> & _).
    by eapply ocr_via_gemini_result. }
  split; [exact Hx|]. rewrite upload_contract_eq, Hx. split; intros Hlen.
  - assert (Hg' : negb (truthy raw) || bool_decide (len raw < 10) = false).
    { apply long_enough_iff. split; [|done]. intros ->. cbn in Hlen. lia. }
    by rewrite Hg'.
  - by rewrite bool_decide_eq_true_2, orb_true_r.
Qed.

Lemma cloud_text_is_judged_by_the_upload_guard_only_witness :
  len (strip (layer1_text Examples.receipt_pdf)) ≤ 50
  ∧ len (strip (layer2_text Examples.receipt_pdf)) ≤ 50
  ∧ len "Total due: 42.00 EUR" = 20
  ∧ result_of (run_extract 2 Examples.receipt_pdf) = Returns "Total due: 42.00 EUR"
  ∧ result_of (upload_contract "5b7e" "receipt.pdf" 2 Examples.receipt_pdf ∅)
    = Returns [("session_id", "5b7e"); ("message", "File processed")].
Proof.
  assert (H1 : len (strip (layer1_text Examples.receipt_pdf)) ≤ 50) by (vm_compute; lia).
  assert (H2 : len (strip (layer2_text Examples.receipt_pdf)) ≤ 50) by (vm_compute; lia).
  assert (Hp : poll_run (gemini Examples.receipt_pdf) 0
                 (RemoteFile "files/1" "PROCESSING")
                 (Ok (RemoteFile "files/1" "ACTIVE")) 2).
  { eapply poll_next; [reflexivity..|].
    eapply poll_next; [reflexivity..|].
    by apply poll_ready. }
  destruct (cloud_text_is_judged_by_the_upload_guard_only ∅ "5b7e" "receipt.pdf" 2
              Examples.receipt_pdf
              (RemoteFile "files/1" "PROCESSING") (RemoteFile "files/1" "ACTIVE") 2
              (Response (Ok "Total due: 42.00 EUR")) "Total due: 42.00 EUR"
              H1 H2 eq_refl Hp eq_refl eq_refl (le_n 2)) as (Hx & Hok & _).
  split; [exact H1|]. split; [exact H2|]. split; [reflexivity|]. split; [exact Hx|].
  rewrite Hok; [reflexivity|]. vm_compute. lia.
Defined.
